(** * Digital Policy Sandbox: the simulation rule engine

    A shallow embedding of [SimulationEngine] and [compareScenarios]
    (the "Simulation Rule Engine" source file) and the properties of the
    engine's specification proved or refuted against it.

    Numbers.  A JavaScript [number] is modelled as a rational [Q]: the
    embedding is exact for the arithmetic the engine performs as long as
    every intermediate value is finite, and it does not model rounding.
    The two places where the engine can leave the finite numbers are
    written out with [option]: a division whose divisor is computed from
    the input (see [divide]) and the read of the seasonality table past
    its end (see [generateMonthlyProjections]).  There [None] says that
    the number is not finite, and not which of Infinity, -Infinity and
    not-a-number it is.  Equalities between computed numbers are stated
    with [==] ([Qeq]).

    Text.  A parameter that holds text is read as a number by the
    language, mostly as not-a-number, which no rational stands for.  The
    rational stages are exact on inputs whose parameters hold no text
    under the keys that the engine reads ([numericPolicies]); the
    compliance stage is embedded a second time over numbers that need
    not be finite ([complianceJs]), which covers the other inputs.

    Objects.  A JavaScript object used as a dictionary is a [gmap] on
    string keys holding its own properties.  A plain object also answers
    to the names it inherits from [Object.prototype]
    ([objectPrototypeNames]); the statements about a key of a parameter
    bag or about a size category assume that it is none of them
    ([ownName]). *)

From Stdlib Require Import QArith Qminmax Qround Lqa ZArith Lia.
From stdpp Require Import gmap strings list fin_maps.

Open Scope Q_scope.

(** ** Values of a parameter bag

    [PolicyParameters] declares [number | string | boolean] values. *)
Inductive JsValue : Type :=
  | VNum (n : Q)
  | VStr (s : string)
  | VBool (b : bool).

(** The two coercions of the language that rational arithmetic does not
    determine: reading a string as a number and printing a number.  The
    development is parametric in them.  [Number_of_string] gives the
    number that a text spells when it spells a finite one; a text that
    spells none reads as not-a-number, which is outside [Q], so the
    statements that depend on the value of a parameter exclude text
    under the keys read ([numericPolicies]) or name the reading they
    assume. *)
Class JsCoercion : Type := {
  Number_of_string : string -> Q;
  String_of_number : Q -> string
}.

(** The coercions under which every string reads as zero; used to
    run the engine on concrete inputs, none of which reads a text other
    than ["0"]. *)
#[global] Instance plainCoercion : JsCoercion :=
  {| Number_of_string := fun _ => 0; String_of_number := fun _ => EmptyString |}.

Definition Qltb (x y : Q) : bool := negb (Qle_bool y x).

(** [a / b] for a divisor that is not a literal: [None] stands for the
    non-finite result of a division by zero. *)
Definition divide (a b : Q) : option Q :=
  if Qeq_bool b 0 then None else Some (a / b).

(** [Math.round]: the nearest integer, halves rounded upwards. *)
Definition Math_round (x : Q) : Z := Qfloor (x + (1 # 2)).

(** [Math.ceil]. *)
Definition Math_ceil (x : Q) : Z := Qceiling x.

Section Coercions.
Context `{JsCoercion}.

(** [ToNumber] on a parameter value: exact on numbers and booleans, and
    on a text that spells a finite number. *)
Definition toNumber (v : JsValue) : Q :=
  match v with
  | VNum n => n
  | VStr s => Number_of_string s
  | VBool b => if b then 1 else 0
  end.

(** Truthiness: [0], the empty string and [false] are falsy. *)
Definition truthy (v : JsValue) : bool :=
  match v with
  | VNum n => negb (Qeq_bool n 0)
  | VStr s => negb (String.eqb s EmptyString)
  | VBool b => b
  end.

(** [(x || d)] read in a numeric position, for an optional property [x]
    and a numeric default [d]. *)
Definition orDefault (x : option JsValue) (d : Q) : Q :=
  match x with
  | Some v => if truthy v then toNumber v else d
  | None => d
  end.

(** The same for a property typed [number]. *)
Definition numOr (x : option Q) (d : Q) : Q :=
  match x with
  | Some n => if Qeq_bool n 0 then d else n
  | None => d
  end.

(** [(x || y)] for two optional properties typed [number]. *)
Definition orElse (x y : option Q) : option Q :=
  match x with
  | Some n => if Qeq_bool n 0 then y else Some n
  | None => y
  end.

(** [(old + value) / 2] where [value] is a number and [old] is whatever
    the accumulator holds: [+] concatenates when [old] is a string. *)
Definition halfSum (old : JsValue) (value : Q) : JsValue :=
  match old with
  | VStr s => VNum (Number_of_string (s ++ String_of_number value) / 2)
  | _ => VNum ((toNumber old + value) / 2)
  end.

End Coercions.

(** ** Inputs *)

Record PolicyVersion : Type := {
  parameters : gmap string JsValue
}.

(** One element of [SimulationInput.policies]. *)
Record PolicyContribution : Type := {
  policy : PolicyVersion;
  overrides : option (gmap string JsValue)
}.

Section Aggregation.
Context `{JsCoercion}.

(** The body of the loop over [Object.entries(params)].  The test
    [aggregated[key] !== undefined] and the write [aggregated[key] = ...]
    are those of a map of own properties, which a plain object is under
    every key that it does not inherit ([ownName]). *)
Definition foldParameter (key : string) (value : JsValue)
    (aggregated : gmap string JsValue) : gmap string JsValue :=
  match value, aggregated !! key with
  | VNum v, Some old => <[key := halfSum old v]> aggregated
  | _, _ => <[key := value]> aggregated
  end.

(** The body of the loop over [Object.entries(overrides)], under the
    same reading of the write. *)
Definition applyOverride (key : string) (value : JsValue)
    (aggregated : gmap string JsValue) : gmap string JsValue :=
  <[key := value]> aggregated.

(** The body of the loop over [this.input.policies]. *)
Definition foldContribution (aggregated : gmap string JsValue)
    (c : PolicyContribution) : gmap string JsValue :=
  let aggregated := map_fold foldParameter aggregated (parameters (policy c)) in
  match overrides c with
  | Some o => map_fold applyOverride aggregated o
  | None => aggregated
  end.

Definition aggregateParameters (policies : list PolicyContribution)
    : gmap string JsValue :=
  fold_left foldContribution policies ∅.

End Aggregation.

(** The override value that a contribution carries for [key], if any. *)
Definition overrideAt (key : string) (c : PolicyContribution) : option JsValue :=
  match overrides c with
  | Some o => o !! key
  | None => None
  end.

(** The override value of the last contribution whose overrides contain
    [key]. *)
Fixpoint lastOverride (key : string) (policies : list PolicyContribution)
    : option JsValue :=
  match policies with
  | [] => None
  | c :: rest =>
      match lastOverride key rest with
      | Some v => Some v
      | None => overrideAt key c
      end
  end.

(** A contribution that neither sets nor overrides [key]. *)
Definition silentOn (key : string) (c : PolicyContribution) : Prop :=
  parameters (policy c) !! key = None /\ overrideAt key c = None.

Definition contribution (params : gmap string JsValue)
    (o : option (gmap string JsValue)) : PolicyContribution :=
  {| policy := {| parameters := params |}; overrides := o |}.

Definition fineOnly (n : Q) : gmap string JsValue := {[ "fineAmount" := VNum n ]}.

(** ** The inputs on which the rational embedding is exact *)

(** The property names of [Object.prototype].  For a plain object [o]
    and one of these names [k], [o[k]] is defined before anything is
    written to [o], and a write of a number, a string or a boolean to
    [o.__proto__] stores nothing. *)
Definition objectPrototypeNames : list string :=
  ["constructor"; "__defineGetter__"; "__defineSetter__"; "hasOwnProperty";
   "__lookupGetter__"; "__lookupSetter__"; "isPrototypeOf";
   "propertyIsEnumerable"; "toString"; "valueOf"; "__proto__";
   "toLocaleString"].

(** A name under which a plain object holds only what was written to it. *)
Definition ownName (key : string) : bool :=
  negb (existsb (String.eqb key) objectPrototypeNames).

Definition ownKeys (m : gmap string JsValue) : bool :=
  forallb (fun kv => ownName (fst kv)) (map_to_list m).

(** Every key of the contribution, in its parameters and in its
    overrides, is such a name. *)
Definition ownContribution (c : PolicyContribution) : bool :=
  ownKeys (parameters (policy c))
  && match overrides c with
     | Some o => ownKeys o
     | None => true
     end.

(** The keys of [PolicyParameters] that the engine reads, each declared
    [number]. *)
Definition readKeys : list string :=
  ["fineAmount"; "permitDuration"; "inspectionFrequency"; "taxRate";
   "feeAmount"; "gracePeriod"].

(** The map holds no text under [key]. *)
Definition textFree (m : gmap string JsValue) (key : string) : bool :=
  match m !! key with
  | Some (VStr _) => false
  | _ => true
  end.

(** The contribution holds no text under [key], in its parameters or in
    its overrides. *)
Definition textFreeAt (key : string) (c : PolicyContribution) : bool :=
  textFree (parameters (policy c)) key
  && match overrides c with
     | Some o => textFree o key
     | None => true
     end.

(** No contribution holds text under one of [keys]. *)
Definition textFreePolicies (keys : list string)
    (policies : list PolicyContribution) : bool :=
  forallb (fun c => forallb (fun key => textFreeAt key c) keys) policies.

(** No contribution holds text under a key that the engine reads: the
    values read are numbers, as [PolicyParameters] declares them, or
    booleans. *)
Definition numericPolicies (policies : list PolicyContribution) : bool :=
  textFreePolicies readKeys policies.

(** The keys read by [calculateCompliance] and by
    [calculateSatisfaction]. *)
Definition complianceKeys : list string :=
  ["fineAmount"; "inspectionFrequency"; "permitDuration"].

Definition satisfactionKeys : list string :=
  ["fineAmount"; "permitDuration"; "taxRate"; "gracePeriod"].

(** ** Population records

    The engine reads these columns of the two Prisma models; the JSON
    columns are cast to [Record<string, number> | null]. *)

Module CitizenGroup.
Record t : Type := {
  name : string;
  population : Z;
  complianceRate : Q;
  demographics : option (gmap string Q);
  behaviorRules : option (gmap string Q)
}.
End CitizenGroup.

Module BusinessCategory.
Record t : Type := {
  name : string;
  count : Z;
  complianceRate : Q;
  sizeCategory : option string;
  behaviorRules : option (gmap string Q)
}.
End BusinessCategory.

Record SimulationConfig : Type := {
  timeHorizon : Q;
  includeSeasonality : bool;
  populationGrowth : Q;
  economicGrowth : Q
}.

Record SimulationInput : Type := {
  policies : list PolicyContribution;
  citizenGroups : list CitizenGroup.t;
  businessCategories : list BusinessCategory.t;
  config : SimulationConfig
}.

(** ** Results *)

Module Revenue.
Record t : Type := {
  total : Q;
  fromFines : Q;
  fromPermits : Q;
  fromTaxes : Q;
  fromFees : Q;
  breakdown : gmap string Q
}.
End Revenue.

Module Compliance.
Record t : Type := {
  overall : Q;
  citizen : Q;
  business : Q;
  byCategory : gmap string Q
}.
End Compliance.

(** [totalHours], [permits] and [staffRequired] go through a division by
    a computed divisor: [None] stands for a result that is not finite,
    Infinity, -Infinity or not-a-number. *)
Module Workload.
Record t : Type := {
  totalHours : option Q;
  inspections : Z;
  permits : option Z;
  appeals : Z;
  staffRequired : option Z
}.
End Workload.

Module Satisfaction.
Record t : Type := {
  overall : Q;
  citizen : Q;
  business : Q;
  byDemographic : gmap string Q
}.
End Satisfaction.

(** [revenue] and [workload] are multiplied by the seasonal factor, which
    is [undefined] past the end of the table: [None] is the resulting
    not-a-number. *)
Module MonthlyProjection.
Record t : Type := {
  month : Z;
  revenue : option Q;
  compliance : Q;
  workload : option Q;
  satisfaction : Q
}.
End MonthlyProjection.

Record SimulationMetrics : Type := {
  revenue : Revenue.t;
  compliance : Compliance.t;
  workload : Workload.t;
  satisfaction : Satisfaction.t;
  monthlyProjections : list MonthlyProjection.t
}.

(** The engine object: its two private fields. *)
Record SimulationEngine : Type := {
  input : SimulationInput;
  results : SimulationMetrics
}.

Definition initializeResults : SimulationMetrics :=
  {| revenue :=
       {| Revenue.total := 0; Revenue.fromFines := 0; Revenue.fromPermits := 0;
          Revenue.fromTaxes := 0; Revenue.fromFees := 0; Revenue.breakdown := ∅ |};
     compliance :=
       {| Compliance.overall := 0; Compliance.citizen := 0;
          Compliance.business := 0; Compliance.byCategory := ∅ |};
     workload :=
       {| Workload.totalHours := Some 0; Workload.inspections := 0%Z;
          Workload.permits := Some 0%Z; Workload.appeals := 0%Z;
          Workload.staffRequired := Some 0%Z |};
     satisfaction :=
       {| Satisfaction.overall := 0; Satisfaction.citizen := 0;
          Satisfaction.business := 0; Satisfaction.byDemographic := ∅ |};
     monthlyProjections := [] |}.

(** [new SimulationEngine(input)]. *)
Definition newEngine (i : SimulationInput) : SimulationEngine :=
  {| input := i; results := initializeResults |}.

(** [record?.key] on a nullable JSON column. *)
Definition field (record : option (gmap string Q)) (key : string) : option Q :=
  match record with
  | Some r => r !! key
  | None => None
  end.

(** ** Helper methods *)

Section Helpers.
Context `{JsCoercion}.

Definition getDetectionRate (params : gmap string JsValue) : Q :=
  let baseRate := 0.3 in
  let inspectionBoost := Qmin 0.4 (orDefault (params !! "inspectionFrequency") 0 / 25) in
  Qmin 0.9 (baseRate + inspectionBoost).

Definition getPermitEligibility (group : CitizenGroup.t) : Q :=
  numOr (field (CitizenGroup.demographics group) "permitEligibility") 0.3.

Definition getAverageIncome (group : CitizenGroup.t) : Q :=
  numOr (field (CitizenGroup.demographics group) "averageIncome") 30000.

(** [business.sizeCategory || 'small'].  The two tables indexed by it
    are plain objects, read below as maps of own properties
    ([ownSizes]). *)
Definition sizeOrSmall (business : BusinessCategory.t) : string :=
  match BusinessCategory.sizeCategory business with
  | Some s => if String.eqb s EmptyString then "small" else s
  | None => "small"
  end.

Definition sizeMultipliers : gmap string Q :=
  {[ "small" := 1; "medium" := 2; "large" := 5 ]}.

Definition getBusinessMultiplier (business : BusinessCategory.t) : Q :=
  numOr (sizeMultipliers !! sizeOrSmall business) 1.

Definition baseRevenue : gmap string Q :=
  {[ "small" := 100000; "medium" := 500000; "large" := 2000000 ]}.

Definition getAverageBusinessRevenue (business : BusinessCategory.t) : Q :=
  numOr (orElse (field (BusinessCategory.behaviorRules business) "averageRevenue")
                (baseRevenue !! sizeOrSmall business))
        100000.

Definition getSeasonalityFactors : list Q :=
  [0.85; 0.88; 0.95; 1.02; 1.08; 1.15; 1.12; 1.10; 1.02; 0.95; 0.88; 1.00].

End Helpers.

(** [sizeMultipliers] and [baseRevenue] are plain objects: the lookups
    above are those of the code for a size category that is none of the
    names they inherit. *)
Definition ownSizes (i : SimulationInput) : bool :=
  forallb (fun business => ownName (sizeOrSmall business)) (businessCategories i).

(** ** Revenue *)

Record RevenueTotals : Type := {
  totalFines : Q;
  totalPermits : Q;
  totalTaxes : Q;
  totalFees : Q
}.

Section Stages.
Context `{JsCoercion}.

(** The body of the loop over the citizen groups in [calculateRevenue]. *)
Definition revenueOfGroup (params : gmap string JsValue) (cfg : SimulationConfig)
    (acc : RevenueTotals) (group : CitizenGroup.t) : RevenueTotals :=
  let population := inject_Z (CitizenGroup.population group) in
  let complianceRate := CitizenGroup.complianceRate group in
  let nonCompliant := population * (1 - complianceRate) in
  let detectionRate := getDetectionRate params in
  let permitEligible := population * getPermitEligibility group in
  let avgIncome := getAverageIncome group in
  {| totalFines := totalFines acc
       + nonCompliant * detectionRate * orDefault (params !! "fineAmount") 0;
     totalPermits := totalPermits acc
       + permitEligible * orDefault (params !! "feeAmount") 0;
     totalTaxes := totalTaxes acc
       + population * avgIncome * (orDefault (params !! "taxRate") 0 / 100)
         * timeHorizon cfg / 12;
     totalFees := totalFees acc |}.

(** The body of the loop over the business categories in [calculateRevenue]. *)
Definition revenueOfBusiness (params : gmap string JsValue) (cfg : SimulationConfig)
    (acc : RevenueTotals) (business : BusinessCategory.t) : RevenueTotals :=
  let count := inject_Z (BusinessCategory.count business) in
  let complianceRate := BusinessCategory.complianceRate business in
  let nonCompliant := count * (1 - complianceRate) in
  let detectionRate := getDetectionRate params in
  let avgRevenue := getAverageBusinessRevenue business in
  {| totalFines := totalFines acc
       + nonCompliant * detectionRate * orDefault (params !! "fineAmount") 0
         * getBusinessMultiplier business;
     totalPermits := totalPermits acc
       + count * orDefault (params !! "feeAmount") 0 * getBusinessMultiplier business;
     totalTaxes := totalTaxes acc
       + count * avgRevenue * (orDefault (params !! "taxRate") 0 / 100)
         * timeHorizon cfg / 12;
     totalFees := totalFees acc |}.

(** The totals after both loops. *)
Definition revenueTotals (params : gmap string JsValue) (i : SimulationInput)
    : RevenueTotals :=
  let start :=
    {| totalFines := 0; totalPermits := 0; totalTaxes := 0; totalFees := 0 |} in
  let afterCitizens :=
    fold_left (revenueOfGroup params (config i)) (citizenGroups i) start in
  fold_left (revenueOfBusiness params (config i)) (businessCategories i) afterCitizens.

Definition revenueWith (params : gmap string JsValue) (i : SimulationInput)
    : Revenue.t :=
  let t := revenueTotals params i in
  let growthFactor :=
    1 + (economicGrowth (config i) / 100) * (timeHorizon (config i) / 12) in
  {| Revenue.total :=
       (totalFines t + totalPermits t + totalTaxes t + totalFees t) * growthFactor;
     Revenue.fromFines := totalFines t * growthFactor;
     Revenue.fromPermits := totalPermits t * growthFactor;
     Revenue.fromTaxes := totalTaxes t * growthFactor;
     Revenue.fromFees := totalFees t * growthFactor;
     Revenue.breakdown :=
       {[ "citizenFines" := totalFines t * 0.3 * growthFactor;
          "businessFines" := totalFines t * 0.7 * growthFactor;
          "citizenPermits" := totalPermits t * 0.4 * growthFactor;
          "businessPermits" := totalPermits t * 0.6 * growthFactor ]} |}.

Definition calculateRevenue (e : SimulationEngine) : SimulationEngine :=
  let params := aggregateParameters (policies (input e)) in
  let r := results e in
  {| input := input e;
     results :=
       {| revenue := revenueWith params (input e);
          compliance := compliance r;
          workload := workload r;
          satisfaction := satisfaction r;
          monthlyProjections := monthlyProjections r |} |}.

(** ** Compliance *)

(** The running sums of one loop of [calculateCompliance] or
    [calculateSatisfaction], with the map the loop writes to. *)
Record Weighted : Type := {
  weightedSum : Q;
  weight : Q;
  byName : gmap string Q
}.

Definition accumulate (acc : Weighted) (name : string) (value size : Q) : Weighted :=
  {| weightedSum := weightedSum acc + value * size;
     weight := weight acc + size;
     byName := <[name := value]> (byName acc) |}.

Definition citizenAdjustedCompliance (params : gmap string JsValue)
    (group : CitizenGroup.t) : Q :=
  let baseCompliance := CitizenGroup.complianceRate group in
  let fineImpact := Qmin 0.1 (orDefault (params !! "fineAmount") 0 / 10000) in
  let inspectionImpact :=
    Qmin 0.05 (orDefault (params !! "inspectionFrequency") 0 / 20) in
  let permitImpact :=
    - Qmin 0.02 ((orDefault (params !! "permitDuration") 365 - 365) / 3650) in
  Qmin 1 (Qmax 0 (baseCompliance + fineImpact + inspectionImpact + permitImpact)).

Definition businessAdjustedCompliance (params : gmap string JsValue)
    (business : BusinessCategory.t) : Q :=
  let baseCompliance := BusinessCategory.complianceRate business in
  let fineImpact := Qmin 0.15 (orDefault (params !! "fineAmount") 0 / 5000) in
  let inspectionImpact :=
    Qmin 0.08 (orDefault (params !! "inspectionFrequency") 0 / 12) in
  Qmin 1 (Qmax 0 (baseCompliance + fineImpact + inspectionImpact)).

Definition complianceOfGroup (params : gmap string JsValue)
    (acc : Weighted) (group : CitizenGroup.t) : Weighted :=
  accumulate acc (CitizenGroup.name group)
    (citizenAdjustedCompliance params group)
    (inject_Z (CitizenGroup.population group)).

Definition complianceOfBusiness (params : gmap string JsValue)
    (acc : Weighted) (business : BusinessCategory.t) : Weighted :=
  accumulate acc (BusinessCategory.name business)
    (businessAdjustedCompliance params business)
    (inject_Z (BusinessCategory.count business)).

(** [total > 0 ? sum / total : fallback]. *)
Definition averageOr (acc : Weighted) (fallback : Q) : Q :=
  if Qltb 0 (weight acc) then weightedSum acc / weight acc else fallback.

Definition complianceWith (params : gmap string JsValue) (i : SimulationInput)
    : Compliance.t :=
  let citizens :=
    fold_left (complianceOfGroup params) (citizenGroups i)
      {| weightedSum := 0; weight := 0; byName := ∅ |} in
  let businesses :=
    fold_left (complianceOfBusiness params) (businessCategories i)
      {| weightedSum := 0; weight := 0; byName := byName citizens |} in
  let citizenCompliance := averageOr citizens 0 in
  let businessCompliance := averageOr businesses 0 in
  {| Compliance.overall := (citizenCompliance + businessCompliance) / 2;
     Compliance.citizen := citizenCompliance;
     Compliance.business := businessCompliance;
     Compliance.byCategory := byName businesses |}.

Definition calculateCompliance (e : SimulationEngine) : SimulationEngine :=
  let params := aggregateParameters (policies (input e)) in
  let r := results e in
  {| input := input e;
     results :=
       {| revenue := revenue r;
          compliance := complianceWith params (input e);
          workload := workload r;
          satisfaction := satisfaction r;
          monthlyProjections := monthlyProjections r |} |}.

(** ** Workload *)

Definition inspectionsOfGroup (params : gmap string JsValue) (cfg : SimulationConfig)
    (totalInspections : Q) (group : CitizenGroup.t) : Q :=
  let inspectionRate := orDefault (params !! "inspectionFrequency") 0 / 12 in
  totalInspections
    + inject_Z (CitizenGroup.population group) * inspectionRate * timeHorizon cfg.

Definition inspectionsOfBusiness (params : gmap string JsValue) (cfg : SimulationConfig)
    (totalInspections : Q) (business : BusinessCategory.t) : Q :=
  let inspectionRate := orDefault (params !! "inspectionFrequency") 0 / 12 in
  totalInspections
    + inject_Z (BusinessCategory.count business) * inspectionRate * timeHorizon cfg * 2.

(** [12 / ((params.permitDuration || 365) / 30)]. *)
Definition permitRenewalsPerYear (params : gmap string JsValue) : option Q :=
  divide 12 (orDefault (params !! "permitDuration") 365 / 30).

Definition workloadWith (params : gmap string JsValue) (i : SimulationInput)
    (overallCompliance : Q) : Workload.t :=
  let cfg := config i in
  let totalInspections :=
    fold_left (inspectionsOfBusiness params cfg) (businessCategories i)
      (fold_left (inspectionsOfGroup params cfg) (citizenGroups i) 0) in
  let totalPopulation :=
    fold_left (fun sum g => sum + inject_Z (CitizenGroup.population g))
      (citizenGroups i) 0 in
  let totalBusinesses :=
    fold_left (fun sum b => sum + inject_Z (BusinessCategory.count b))
      (businessCategories i) 0 in
  let totalPermits :=
    (fun renewals =>
       (totalPopulation * 0.1 + totalBusinesses) * renewals * (timeHorizon cfg / 12))
      <$> permitRenewalsPerYear params in
  let nonCompliantRate := 1 - overallCompliance in
  let appealRate :=
    nonCompliantRate * 0.1 * (orDefault (params !! "fineAmount") 0 / 500) in
  let totalAppeals := (totalPopulation + totalBusinesses) * appealRate in
  let inspectionHours := totalInspections * 2 in
  let permitHours := (fun p => p * 0.5) <$> totalPermits in
  let appealHours := totalAppeals * 4 in
  let totalHours := (fun ph => inspectionHours + ph + appealHours) <$> permitHours in
  let staffRequired :=
    totalHours ≫= (fun h => Math_ceil <$> divide h (160 * (timeHorizon cfg / 12))) in
  {| Workload.totalHours := totalHours;
     Workload.inspections := Math_round totalInspections;
     Workload.permits := Math_round <$> totalPermits;
     Workload.appeals := Math_round totalAppeals;
     Workload.staffRequired := staffRequired |}.

Definition calculateWorkload (e : SimulationEngine) : SimulationEngine :=
  let params := aggregateParameters (policies (input e)) in
  let r := results e in
  {| input := input e;
     results :=
       {| revenue := revenue r;
          compliance := compliance r;
          workload := workloadWith params (input e) (Compliance.overall (compliance r));
          satisfaction := satisfaction r;
          monthlyProjections := monthlyProjections r |} |}.

(** ** Satisfaction *)

Definition baseSatisfaction : Q := 70.

Definition satisfactionFineImpact (params : gmap string JsValue) : Q :=
  - Qmin 20 (orDefault (params !! "fineAmount") 0 / 50).

Definition satisfactionPermitImpact (params : gmap string JsValue) : Q :=
  Qmin 10 ((orDefault (params !! "permitDuration") 365 - 180) / 50).

Definition satisfactionTaxImpact (params : gmap string JsValue) : Q :=
  - Qmin 15 (orDefault (params !! "taxRate") 0 / 2).

Definition satisfactionGraceImpact (params : gmap string JsValue) : Q :=
  Qmin 5 (orDefault (params !! "gracePeriod") 0 / 10).

Definition groupSatisfaction (params : gmap string JsValue)
    (group : CitizenGroup.t) : Q :=
  let behaviorRules := CitizenGroup.behaviorRules group in
  let incomeModifier := numOr (field behaviorRules "incomeSensitivity") 1 in
  let awarenessModifier := numOr (field behaviorRules "policyAwareness") 1 in
  Qmin 100 (Qmax 0
    (baseSatisfaction + satisfactionFineImpact params * incomeModifier
       + satisfactionPermitImpact params + satisfactionTaxImpact params
       + satisfactionGraceImpact params * awarenessModifier)).

Definition sizeModifier (business : BusinessCategory.t) : Q :=
  match BusinessCategory.sizeCategory business with
  | Some s =>
      if String.eqb s "large" then 0.8
      else if String.eqb s "small" then 1.2
      else 1
  | None => 1
  end.

Definition businessSatisfaction (params : gmap string JsValue)
    (business : BusinessCategory.t) : Q :=
  let behaviorRules := BusinessCategory.behaviorRules business in
  let businessFineImpact := satisfactionFineImpact params * 0.5 in
  let businessPermitImpact := satisfactionPermitImpact params * 1.5 in
  let businessTaxImpact := satisfactionTaxImpact params * 1.2 in
  let awarenessModifier := numOr (field behaviorRules "policyAwareness") 1 in
  Qmin 100 (Qmax 0
    (baseSatisfaction + businessFineImpact + businessPermitImpact
       + businessTaxImpact * sizeModifier business * awarenessModifier)).

Definition satisfactionOfGroup (params : gmap string JsValue)
    (acc : Weighted) (group : CitizenGroup.t) : Weighted :=
  accumulate acc (CitizenGroup.name group)
    (groupSatisfaction params group)
    (inject_Z (CitizenGroup.population group)).

Definition satisfactionOfBusiness (params : gmap string JsValue)
    (acc : Weighted) (business : BusinessCategory.t) : Weighted :=
  accumulate acc (BusinessCategory.name business)
    (businessSatisfaction params business)
    (inject_Z (BusinessCategory.count business)).

Definition satisfactionWith (params : gmap string JsValue) (i : SimulationInput)
    : Satisfaction.t :=
  let citizens :=
    fold_left (satisfactionOfGroup params) (citizenGroups i)
      {| weightedSum := 0; weight := 0; byName := ∅ |} in
  let businesses :=
    fold_left (satisfactionOfBusiness params) (businessCategories i)
      {| weightedSum := 0; weight := 0; byName := byName citizens |} in
  let citizenSatisfaction := averageOr citizens baseSatisfaction in
  let businessSatisfaction := averageOr businesses baseSatisfaction in
  {| Satisfaction.overall := (citizenSatisfaction + businessSatisfaction) / 2;
     Satisfaction.citizen := citizenSatisfaction;
     Satisfaction.business := businessSatisfaction;
     Satisfaction.byDemographic := byName businesses |}.

Definition calculateSatisfaction (e : SimulationEngine) : SimulationEngine :=
  let params := aggregateParameters (policies (input e)) in
  let r := results e in
  {| input := input e;
     results :=
       {| revenue := revenue r;
          compliance := compliance r;
          workload := workload r;
          satisfaction := satisfactionWith params (input e);
          monthlyProjections := monthlyProjections r |} |}.

End Stages.

(** ** Monthly projections *)

(** The values of [month] for which the loop
    [for (let month = 1; month <= months; month++)] runs its body. *)
Definition loopMonths (months : Q) : list Z :=
  map Z.of_nat (seq 1 (Z.to_nat (Qfloor months))).

(** [includeSeasonality ? seasonality[month - 1] : 1]; the read is
    [undefined] past the end of the table. *)
Definition seasonFactor (cfg : SimulationConfig) (month : Z) : option Q :=
  if includeSeasonality cfg
  then getSeasonalityFactors !! Z.to_nat (month - 1)
  else Some 1.

(** The ambient generator behind [Math.random()]: [random k] is the value
    of the k-th call made during the run. *)
Definition RandomSource : Type := nat -> Q.

(** The state of the loop: the array pushed to and the number of calls
    of [Math.random()] made so far. *)
Record ProjectionLoop : Type := {
  pushed : list MonthlyProjection.t;
  calls : nat
}.

(** The body of the loop in [generateMonthlyProjections]. *)
Definition projectMonth (i : SimulationInput) (r : SimulationMetrics)
    (random : RandomSource) (st : ProjectionLoop) (month : Z) : ProjectionLoop :=
  let cfg := config i in
  let months := timeHorizon cfg in
  let season := seasonFactor cfg month in
  let growthFactor := 1 + (economicGrowth cfg / 100) * (inject_Z month / 12) in
  let populationFactor := 1 + (populationGrowth cfg / 100) * (inject_Z month / 12) in
  let projection :=
    {| MonthlyProjection.month := month;
       MonthlyProjection.revenue :=
         (fun s => (Revenue.total (revenue r) / months) * s * growthFactor) <$> season;
       MonthlyProjection.compliance :=
         Compliance.overall (compliance r)
           * (1 + (random (calls st) * 0.02 - 0.01));
       MonthlyProjection.workload :=
         Workload.totalHours (workload r) ≫= (fun hours =>
           (fun s => (hours / months) * s) <$> season);
       MonthlyProjection.satisfaction :=
         Satisfaction.overall (satisfaction r)
           * (1 + (random (S (calls st)) * 0.02 - 0.01)) |} in
  {| pushed := pushed st ++ [projection]; calls := S (S (calls st)) |}.

Definition generateMonthlyProjections (random : RandomSource)
    (e : SimulationEngine) : SimulationEngine :=
  let r := results e in
  let final :=
    fold_left (projectMonth (input e) r random)
      (loopMonths (timeHorizon (config (input e))))
      {| pushed := monthlyProjections r; calls := 0 |} in
  {| input := input e;
     results :=
       {| revenue := revenue r;
          compliance := compliance r;
          workload := workload r;
          satisfaction := satisfaction r;
          monthlyProjections := pushed final |} |}.

(** ** The runner *)

Section Runner.
Context `{JsCoercion}.

(** [run]: the five stages in order on the engine's result object.  The
    progress callback does not touch the engine and is left out. *)
Definition run (random : RandomSource) (e : SimulationEngine) : SimulationEngine :=
  generateMonthlyProjections random
    (calculateSatisfaction
       (calculateWorkload
          (calculateCompliance
             (calculateRevenue e)))).

(** [await new SimulationEngine(input).run()]. *)
Definition simulate (random : RandomSource) (i : SimulationInput) : SimulationMetrics :=
  results (run random (newEngine i)).

End Runner.

(** ** Scenario comparison *)

(** What the embedding determines of a percent change of the workload
    hours.  The guard [baseline > 0] holds of Infinity and fails of
    -Infinity and of not-a-number, which [None] does not tell apart:
    for baseline hours that are not finite the code returns not-a-number
    in the first case and 0 in the other two. *)
Inductive HoursPercent : Type :=
  | Percent (p : option Q)
  | ZeroOrNotANumber.

(** One value per top-level KPI: the shape of [delta] and [percentChange],
    with the workload entry of type [W]. *)
Module KPI.
Record t (W : Type) : Type := {
  revenue : Q;
  compliance : Q;
  workload : W;
  satisfaction : Q
}.
Arguments revenue {W} _.
Arguments compliance {W} _.
Arguments workload {W} _.
Arguments satisfaction {W} _.
End KPI.

Record Scenario : Type := {
  id : string;
  name : string;
  metrics : SimulationMetrics
}.

Record ScenarioResult : Type := {
  scenario : Scenario;
  delta : KPI.t (option Q);
  percentChange : KPI.t HoursPercent
}.

Record ComparisonResult : Type := {
  baseline : SimulationMetrics;
  scenarios : list ScenarioResult
}.

(** [base > 0 ? (delta / base) * 100 : 0]. *)
Definition percentOf (delta base : Q) : Q :=
  if Qltb 0 base then (delta / base) * 100 else 0.

(** The same on the workload hours, which need not be finite.  For a
    finite baseline the guard is decided: the quotient is finite when the
    delta is, and the literal 0 is returned otherwise. *)
Definition percentOfHours (delta base : option Q) : HoursPercent :=
  match base with
  | Some b =>
      if Qltb 0 b then Percent ((fun d => (d / b) * 100) <$> delta)
      else Percent (Some 0)
  | None => ZeroOrNotANumber
  end.

Definition minusHours (x y : option Q) : option Q :=
  x ≫= (fun a => (fun b => a - b) <$> y).

(** The function mapped over [scenarios]. *)
Definition compareScenario (baseline : SimulationMetrics) (s : Scenario)
    : ScenarioResult :=
  let m := metrics s in
  let revenueDelta :=
    Revenue.total (revenue m) - Revenue.total (revenue baseline) in
  let complianceDelta :=
    Compliance.overall (compliance m) - Compliance.overall (compliance baseline) in
  let workloadDelta :=
    minusHours (Workload.totalHours (workload m))
               (Workload.totalHours (workload baseline)) in
  let satisfactionDelta :=
    Satisfaction.overall (satisfaction m)
      - Satisfaction.overall (satisfaction baseline) in
  {| scenario := s;
     delta :=
       {| KPI.revenue := revenueDelta;
          KPI.compliance := complianceDelta;
          KPI.workload := workloadDelta;
          KPI.satisfaction := satisfactionDelta |};
     percentChange :=
       {| KPI.revenue := percentOf revenueDelta (Revenue.total (revenue baseline));
          KPI.compliance :=
            percentOf complianceDelta (Compliance.overall (compliance baseline));
          KPI.workload :=
            percentOfHours workloadDelta (Workload.totalHours (workload baseline));
          KPI.satisfaction :=
            percentOf satisfactionDelta
              (Satisfaction.overall (satisfaction baseline)) |} |}.

Definition compareScenarios (base : SimulationMetrics) (scs : list Scenario)
    : ComparisonResult :=
  {| baseline := base; scenarios := map (compareScenario base) scs |}.

(** ** Numbers that need not be finite

    The compliance stage once more, over the numbers of the language:
    the rationals and the three values outside them.  Rounding is not
    modelled here either. *)

Inductive JsNumber : Type :=
  | Finite (q : Q)
  | PlusInfinity
  | MinusInfinity
  | NotANumber.

(** Unary [-]. *)
Definition jsNeg (x : JsNumber) : JsNumber :=
  match x with
  | Finite a => Finite (- a)
  | PlusInfinity => MinusInfinity
  | MinusInfinity => PlusInfinity
  | NotANumber => NotANumber
  end.

(** [x + y]. *)
Definition jsAdd (x y : JsNumber) : JsNumber :=
  match x with
  | Finite a =>
      match y with
      | Finite b => Finite (a + b)
      | _ => y
      end
  | PlusInfinity =>
      match y with
      | MinusInfinity | NotANumber => NotANumber
      | _ => PlusInfinity
      end
  | MinusInfinity =>
      match y with
      | PlusInfinity | NotANumber => NotANumber
      | _ => MinusInfinity
      end
  | NotANumber => NotANumber
  end.

(** [x - y]. *)
Definition jsSub (x y : JsNumber) : JsNumber := jsAdd x (jsNeg y).

(** [x * q] for a finite [q]. *)
Definition jsTimes (x : JsNumber) (q : Q) : JsNumber :=
  match x with
  | Finite a => Finite (a * q)
  | PlusInfinity =>
      if Qltb 0 q then PlusInfinity
      else if Qltb q 0 then MinusInfinity
      else NotANumber
  | MinusInfinity =>
      if Qltb 0 q then MinusInfinity
      else if Qltb q 0 then PlusInfinity
      else NotANumber
  | NotANumber => NotANumber
  end.

(** [x / d] for a finite divisor [d] greater than 0: the divisors of the
    stage are positive literals and sums tested to be greater than 0. *)
Definition jsOver (x : JsNumber) (d : Q) : JsNumber :=
  match x with
  | Finite a => Finite (a / d)
  | _ => x
  end.

(** [Math.min(x, y)]. *)
Definition jsMin (x y : JsNumber) : JsNumber :=
  match x, y with
  | NotANumber, _ | _, NotANumber => NotANumber
  | MinusInfinity, _ | _, MinusInfinity => MinusInfinity
  | PlusInfinity, _ => y
  | _, PlusInfinity => x
  | Finite a, Finite b => Finite (Qmin a b)
  end.

(** [Math.max(x, y)]. *)
Definition jsMax (x y : JsNumber) : JsNumber :=
  match x, y with
  | NotANumber, _ | _, NotANumber => NotANumber
  | PlusInfinity, _ | _, PlusInfinity => PlusInfinity
  | MinusInfinity, _ => y
  | _, MinusInfinity => x
  | Finite a, Finite b => Finite (Qmax a b)
  end.

Module ComplianceJs.
Record t : Type := {
  overall : JsNumber;
  citizen : JsNumber;
  business : JsNumber;
  byCategory : gmap string JsNumber
}.
End ComplianceJs.

Record WeightedJs : Type := {
  weightedSumJs : JsNumber;
  weightJs : Q;
  byNameJs : gmap string JsNumber
}.

Definition accumulateJs (acc : WeightedJs) (name : string) (value : JsNumber)
    (size : Q) : WeightedJs :=
  {| weightedSumJs := jsAdd (weightedSumJs acc) (jsTimes value size);
     weightJs := weightJs acc + size;
     byNameJs := <[name := value]> (byNameJs acc) |}.

(** [total > 0 ? sum / total : fallback]. *)
Definition averageOrJs (acc : WeightedJs) (fallback : Q) : JsNumber :=
  if Qltb 0 (weightJs acc) then jsOver (weightedSumJs acc) (weightJs acc)
  else Finite fallback.

Section ComplianceOverNumbers.
(** [ToNumber] on a string. *)
Variable Number : string -> JsNumber.

(** [ToNumber] on a parameter value. *)
Definition numberOf (v : JsValue) : JsNumber :=
  match v with
  | VNum n => Finite n
  | VStr s => Number s
  | VBool b => Finite (if b then 1 else 0)
  end.

(** [(x || d)] read in a numeric position. *)
Definition readOr (x : option JsValue) (d : Q) : JsNumber :=
  match x with
  | Some v => if truthy v then numberOf v else Finite d
  | None => Finite d
  end.

Definition citizenAdjustedComplianceJs (params : gmap string JsValue)
    (group : CitizenGroup.t) : JsNumber :=
  let baseCompliance := Finite (CitizenGroup.complianceRate group) in
  let fineImpact :=
    jsMin (Finite 0.1) (jsOver (readOr (params !! "fineAmount") 0) 10000) in
  let inspectionImpact :=
    jsMin (Finite 0.05) (jsOver (readOr (params !! "inspectionFrequency") 0) 20) in
  let permitImpact :=
    jsNeg (jsMin (Finite 0.02)
             (jsOver (jsSub (readOr (params !! "permitDuration") 365) (Finite 365))
                     3650)) in
  jsMin (Finite 1)
    (jsMax (Finite 0)
       (jsAdd (jsAdd (jsAdd baseCompliance fineImpact) inspectionImpact)
              permitImpact)).

Definition businessAdjustedComplianceJs (params : gmap string JsValue)
    (business : BusinessCategory.t) : JsNumber :=
  let baseCompliance := Finite (BusinessCategory.complianceRate business) in
  let fineImpact :=
    jsMin (Finite 0.15) (jsOver (readOr (params !! "fineAmount") 0) 5000) in
  let inspectionImpact :=
    jsMin (Finite 0.08) (jsOver (readOr (params !! "inspectionFrequency") 0) 12) in
  jsMin (Finite 1)
    (jsMax (Finite 0) (jsAdd (jsAdd baseCompliance fineImpact) inspectionImpact)).

Definition complianceOfGroupJs (params : gmap string JsValue)
    (acc : WeightedJs) (group : CitizenGroup.t) : WeightedJs :=
  accumulateJs acc (CitizenGroup.name group)
    (citizenAdjustedComplianceJs params group)
    (inject_Z (CitizenGroup.population group)).

Definition complianceOfBusinessJs (params : gmap string JsValue)
    (acc : WeightedJs) (business : BusinessCategory.t) : WeightedJs :=
  accumulateJs acc (BusinessCategory.name business)
    (businessAdjustedComplianceJs params business)
    (inject_Z (BusinessCategory.count business)).

(** What [calculateCompliance] stores in [this.results.compliance]. *)
Definition complianceJs (params : gmap string JsValue) (i : SimulationInput)
    : ComplianceJs.t :=
  let citizens :=
    fold_left (complianceOfGroupJs params) (citizenGroups i)
      {| weightedSumJs := Finite 0; weightJs := 0; byNameJs := ∅ |} in
  let businesses :=
    fold_left (complianceOfBusinessJs params) (businessCategories i)
      {| weightedSumJs := Finite 0; weightJs := 0; byNameJs := byNameJs citizens |} in
  let citizenCompliance := averageOrJs citizens 0 in
  let businessCompliance := averageOrJs businesses 0 in
  {| ComplianceJs.overall := jsOver (jsAdd citizenCompliance businessCompliance) 2;
     ComplianceJs.citizen := citizenCompliance;
     ComplianceJs.business := businessCompliance;
     ComplianceJs.byCategory := byNameJs businesses |}.

End ComplianceOverNumbers.

(** The running sums of a loop when they are finite. *)
Definition finiteWeighted (acc : Weighted) : WeightedJs :=
  {| weightedSumJs := Finite (weightedSum acc);
     weightJs := weight acc;
     byNameJs := Finite <$> byName acc |}.

(** A compliance record of finite numbers among the numbers. *)
Definition finiteCompliance (c : Compliance.t) : ComplianceJs.t :=
  {| ComplianceJs.overall := Finite (Compliance.overall c);
     ComplianceJs.citizen := Finite (Compliance.citizen c);
     ComplianceJs.business := Finite (Compliance.business c);
     ComplianceJs.byCategory := Finite <$> Compliance.byCategory c |}.

(** [ToNumber] on the texts used below: the empty text reads as 0 and a
    text of letters as not-a-number. *)
Definition wordReading (s : string) : JsNumber :=
  if String.eqb s EmptyString then Finite 0 else NotANumber.

(** ** Inputs and predicates used in the statements *)

Definition scenarioParameters : gmap string JsValue :=
  {[ "fineAmount" := VNum 150;
     "inspectionFrequency" := VNum 4;
     "feeAmount" := VNum 50;
     "taxRate" := VNum 2.5;
     "permitDuration" := VNum 365 ]}.

Definition scenarioGroup : CitizenGroup.t :=
  {| CitizenGroup.name := "residents";
     CitizenGroup.population := 1000;
     CitizenGroup.complianceRate := 0.8;
     CitizenGroup.demographics :=
       Some {[ "averageIncome" := 30000; "permitEligibility" := 0.3 ]};
     CitizenGroup.behaviorRules := None |}.

Definition scenarioInput (populationGrowth : Q) : SimulationInput :=
  {| policies := [contribution scenarioParameters None];
     citizenGroups := [scenarioGroup];
     businessCategories := [];
     config :=
       {| timeHorizon := 12;
          includeSeasonality := false;
          populationGrowth := populationGrowth;
          economicGrowth := 0 |} |}.

Definition kpiMetrics (total overallCompliance hours overallSatisfaction : Q)
    : SimulationMetrics :=
  {| revenue :=
       {| Revenue.total := total; Revenue.fromFines := total;
          Revenue.fromPermits := 0; Revenue.fromTaxes := 0;
          Revenue.fromFees := 0; Revenue.breakdown := ∅ |};
     compliance :=
       {| Compliance.overall := overallCompliance;
          Compliance.citizen := overallCompliance;
          Compliance.business := overallCompliance;
          Compliance.byCategory := ∅ |};
     workload :=
       {| Workload.totalHours := Some hours; Workload.inspections := 0%Z;
          Workload.permits := Some 0%Z; Workload.appeals := 0%Z;
          Workload.staffRequired := Some 0%Z |};
     satisfaction :=
       {| Satisfaction.overall := overallSatisfaction;
          Satisfaction.citizen := overallSatisfaction;
          Satisfaction.business := overallSatisfaction;
          Satisfaction.byDemographic := ∅ |};
     monthlyProjections := [] |}.

Definition scenarioOf (m : SimulationMetrics) : Scenario :=
  {| id := "scenario-1"; name := "What if"; metrics := m |}.

Definition longHorizonInput : SimulationInput :=
  {| policies := [contribution scenarioParameters None];
     citizenGroups := [scenarioGroup];
     businessCategories := [];
     config :=
       {| timeHorizon := 13;
          includeSeasonality := true;
          populationGrowth := 0;
          economicGrowth := 0 |} |}.

Definition deterministicPart (p : MonthlyProjection.t) : Z * option Q * option Q :=
  (MonthlyProjection.month p, MonthlyProjection.revenue p,
   MonthlyProjection.workload p).

Definition zeroFieldsGroup : CitizenGroup.t :=
  {| CitizenGroup.name := "students";
     CitizenGroup.population := 500;
     CitizenGroup.complianceRate := 0.7;
     CitizenGroup.demographics :=
       Some {[ "averageIncome" := 0; "permitEligibility" := 0 ]};
     CitizenGroup.behaviorRules := Some {[ "incomeSensitivity" := 0 ]} |}.

Definition absentFieldsGroup : CitizenGroup.t :=
  {| CitizenGroup.name := "students";
     CitizenGroup.population := 500;
     CitizenGroup.complianceRate := 0.7;
     CitizenGroup.demographics := Some ∅;
     CitizenGroup.behaviorRules := None |}.

Definition within (lo hi v : Q) : Prop := lo <= v /\ v <= hi.

(** The invariant of the compliance and satisfaction loops. *)
Definition balanced (lo hi : Q) (acc : Weighted) : Prop :=
  0 <= weight acc
  /\ lo * weight acc <= weightedSum acc
  /\ weightedSum acc <= hi * weight acc
  /\ map_Forall (fun _ v => within lo hi v) (byName acc).

(** The populations and counts are non-negative and the baseline
    compliance rates are rates. *)
Definition validInput (i : SimulationInput) : Prop :=
  Forall (fun g => (0 <= CitizenGroup.population g)%Z
                   /\ within 0 1 (CitizenGroup.complianceRate g))
         (citizenGroups i)
  /\ Forall (fun b => (0 <= BusinessCategory.count b)%Z
                      /\ within 0 1 (BusinessCategory.complianceRate b))
            (businessCategories i).

(** ** The sums of a projection series *)

Definition sumQ (l : list Q) : Q := foldr Qplus 0 l.

(** The sum of a series of numbers some of which may not be finite. *)
Definition sumFinite (l : list (option Q)) : option Q :=
  foldr (fun x acc => x ≫= (fun a => (fun b => a + b) <$> acc)) (Some 0) l.

(** ** The simulation runner's copy of the engine

    The runner inlines two of the engine's helpers. *)

Section RunnerHelpers.
Context `{JsCoercion}.

(** [0.3 + Math.min(0.4, (params.inspectionFrequency || 0) / 25)]. *)
Definition runnerDetectionRate (params : gmap string JsValue) : Q :=
  0.3 + Qmin 0.4 (orDefault (params !! "inspectionFrequency") 0 / 25).

End RunnerHelpers.

(** [sizeCategory === 'large' ? 5 : sizeCategory === 'medium' ? 2 : 1]. *)
Definition runnerMultiplier (sizeCategory : option string) : Q :=
  match sizeCategory with
  | Some s =>
      if String.eqb s "large" then 5
      else if String.eqb s "medium" then 2
      else 1
  | None => 1
  end.

(** ** Comparison by metric name

    The comparison route pairs the stored metrics of a baseline and of a
    scenario by name. *)

Module Metric.
Record t : Type := {
  name : string;
  displayName : string;
  value : Q;
  isPositive : bool
}.
End Metric.

Module DeltaRow.
Record t : Type := {
  name : string;
  displayName : string;
  baseline : Q;
  scenario : Q;
  delta : Q;
  percentChange : Q;
  isPositive : bool
}.
End DeltaRow.

(** [base !== 0 ? (delta / base) * 100 : 0]. *)
Definition percentNonzero (delta base : Q) : Q :=
  if Qeq_bool base 0 then 0 else (delta / base) * 100.

(** [scenarioMetrics.find(m => m.name === bm.name)]. *)
Definition findMetric (metricName : string) (scenarioMetrics : list Metric.t)
    : option Metric.t :=
  find (fun m => String.eqb (Metric.name m) metricName) scenarioMetrics.

(** The function mapped over [baselineMetrics]; [None] is the [null] of a
    metric without counterpart. *)
Definition deltaRow (scenarioMetrics : list Metric.t) (bm : Metric.t)
    : option DeltaRow.t :=
  match findMetric (Metric.name bm) scenarioMetrics with
  | None => None
  | Some sm =>
      let deltaValue := Metric.value sm - Metric.value bm in
      Some {| DeltaRow.name := Metric.name bm;
              DeltaRow.displayName := Metric.displayName bm;
              DeltaRow.baseline := Metric.value bm;
              DeltaRow.scenario := Metric.value sm;
              DeltaRow.delta := deltaValue;
              DeltaRow.percentChange := percentNonzero deltaValue (Metric.value bm);
              DeltaRow.isPositive :=
                if Metric.isPositive bm then Qltb 0 deltaValue
                else Qltb deltaValue 0 |}
  end.

(** [baselineMetrics.map(...).filter(Boolean)]. *)
Definition metricDeltas (baselineMetrics scenarioMetrics : list Metric.t)
    : list DeltaRow.t :=
  omap (deltaRow scenarioMetrics) baselineMetrics.

(** ** The in-memory cache

    [InMemoryCache] with its tag index.  [Date.now()] is a parameter of
    the operations that read the clock; times and durations are numbers.
    The two [Map]s and the [Set]s are finite maps and sets: the order in
    which they are iterated does not show in what the operations modelled
    here return. *)

Module Cache.

Record CacheEntry (V : Type) : Type := {
  value : V;
  tags : gset string;
  expiresAt : option Q;
  createdAt : Q
}.
Arguments value {V}.
Arguments tags {V}.
Arguments expiresAt {V}.
Arguments createdAt {V}.

Record t (V : Type) : Type := {
  cache : gmap string (CacheEntry V);
  tagIndex : gmap string (gset string);
  hits : nat;
  misses : nat
}.
Arguments cache {V}.
Arguments tagIndex {V}.
Arguments hits {V}.
Arguments misses {V}.

(** The [options] argument of [set]. *)
Record Options : Type := {
  optionTags : option (list string);
  ttl : option Q
}.

Record CacheStats : Type := {
  statHits : nat;
  statMisses : nat;
  size : nat;
  hitRate : Q
}.

Section Operations.
Context {V : Type}.

(** [new InMemoryCache()]. *)
Definition empty : t V :=
  {| cache := ∅; tagIndex := ∅; hits := 0; misses := 0 |}.

(** [entry.expiresAt && now > entry.expiresAt]. *)
Definition expired (now : Q) (entry : CacheEntry V) : bool :=
  match expiresAt entry with
  | Some at_ => negb (Qeq_bool at_ 0) && Qltb at_ now
  | None => false
  end.

(** One step of the loop over [entry.tags] in [delete]. *)
Definition untag (key tag : string) (index : gmap string (gset string))
    : gmap string (gset string) :=
  match index !! tag with
  | Some keys =>
      let keys := keys ∖ {[ key ]} in
      if decide (base.size keys = 0%nat) then base.delete tag index
      else <[tag := keys]> index
  | None => index
  end.

(** One step of the loop over [tags] in [set]. *)
Definition addTag (key tag : string) (index : gmap string (gset string))
    : gmap string (gset string) :=
  <[tag := {[ key ]} ∪ default ∅ (index !! tag)]> index.

Definition delete (key : string) (c : t V) : bool * t V :=
  match cache c !! key with
  | None => (false, c)
  | Some entry =>
      (true,
       {| cache := base.delete key (cache c);
          tagIndex := set_fold (untag key) (tagIndex c) (tags entry);
          hits := hits c;
          misses := misses c |})
  end.

(** [now] is the reading of the clock for the expiry and [created] the
    one for [createdAt]. *)
Definition set (key : string) (v : V) (options : option Options)
    (now created : Q) (c : t V) : t V :=
  let entryTags : gset string :=
    list_to_set (default [] (options ≫= optionTags)) in
  let expiry :=
    match options ≫= ttl with
    | Some d => if Qeq_bool d 0 then None else Some (now + d)
    | None => None
    end in
  let c := if decide (is_Some (cache c !! key)) then snd (delete key c) else c in
  {| cache :=
       <[key := {| value := v; tags := entryTags;
                   expiresAt := expiry; createdAt := created |}]> (cache c);
     tagIndex := set_fold (addTag key) (tagIndex c) entryTags;
     hits := hits c;
     misses := misses c |}.

(** The entry that [set] stores. *)
Definition entryOf (v : V) (options : option Options) (now created : Q)
    : CacheEntry V :=
  {| value := v;
     tags := list_to_set (default [] (options ≫= optionTags));
     expiresAt :=
       match options ≫= ttl with
       | Some d => if Qeq_bool d 0 then None else Some (now + d)
       | None => None
       end;
     createdAt := created |}.

Definition miss (c : t V) : t V :=
  {| cache := cache c; tagIndex := tagIndex c;
     hits := hits c; misses := S (misses c) |}.

Definition hit (c : t V) : t V :=
  {| cache := cache c; tagIndex := tagIndex c;
     hits := S (hits c); misses := misses c |}.

(** [None] is the [null] returned for a miss. *)
Definition get (key : string) (now : Q) (c : t V) : option V * t V :=
  match cache c !! key with
  | None => (None, miss c)
  | Some entry =>
      if expired now entry then (None, miss (snd (delete key c)))
      else (Some (value entry), hit c)
  end.

Definition has (key : string) (now : Q) (c : t V) : bool * t V :=
  match cache c !! key with
  | None => (false, c)
  | Some entry =>
      if expired now entry then (false, snd (delete key c))
      else (true, c)
  end.

(** One step of the loop over the keys of a tag in [invalidateTag]. *)
Definition invalidateKey (key : string) (acc : nat * t V) : nat * t V :=
  let (deleted, c) := delete key (snd acc) in
  (if deleted then S (fst acc) else fst acc, c).

Definition invalidateTag (tag : string) (c : t V) : nat * t V :=
  match tagIndex c !! tag with
  | None => (0%nat, c)
  | Some keys => set_fold invalidateKey (0%nat, c) keys
  end.

Definition invalidateTags (tagList : list string) (c : t V) : nat * t V :=
  fold_left
    (fun acc tag =>
       let (n, c) := invalidateTag tag (snd acc) in ((fst acc + n)%nat, c))
    tagList (0%nat, c).

Definition clear (c : t V) : t V := empty.

Definition getStats (c : t V) : CacheStats :=
  {| statHits := hits c;
     statMisses := misses c;
     size := base.size (cache c);
     hitRate :=
       if Nat.ltb 0 (hits c + misses c)
       then inject_Z (Z.of_nat (hits c)) / inject_Z (Z.of_nat (hits c + misses c))
       else 0 |}.

(** One step of the loop over [this.cache.entries()] in [cleanup]. *)
Definition cleanupEntry (now : Q) (key : string) (entry : CacheEntry V)
    (acc : nat * t V) : nat * t V :=
  if expired now entry then (S (fst acc), snd (delete key (snd acc))) else acc.

Definition cleanup (now : Q) (c : t V) : nat * t V :=
  map_fold (cleanupEntry now) (0%nat, c) (cache c).

(** The key is listed under the tag in the index. *)
Definition indexed (index : gmap string (gset string)) (tag key : string) : Prop :=
  exists keys : gset string, index !! tag = Some keys /\ key ∈ keys.

(** The tag index mirrors the tags of the entries and holds no empty
    set. *)
Definition consistent (c : t V) : Prop :=
  (forall tag key,
      indexed (tagIndex c) tag key
      <-> exists entry, cache c !! key = Some entry /\ tag ∈ tags entry)
  /\ (forall tag keys, tagIndex c !! tag = Some keys -> keys <> ∅).

End Operations.

End Cache.

(** ** Further inputs and predicates used in the statements *)

Definition noRevenue (acc : RevenueTotals) : Prop :=
  totalFines acc == 0 /\ totalPermits acc == 0 /\ totalTaxes acc == 0.

(** The record pushed for [month] when [calls] calls of [Math.random()]
    have been made. *)
Definition projectionOf (i : SimulationInput) (r : SimulationMetrics)
    (random : RandomSource) (calls : nat) (month : Z) : MonthlyProjection.t :=
  {| MonthlyProjection.month := month;
     MonthlyProjection.revenue :=
       (fun s => (Revenue.total (revenue r) / timeHorizon (config i)) * s
                 * (1 + (economicGrowth (config i) / 100) * (inject_Z month / 12)))
         <$> seasonFactor (config i) month;
     MonthlyProjection.compliance :=
       Compliance.overall (compliance r) * (1 + (random calls * 0.02 - 0.01));
     MonthlyProjection.workload :=
       Workload.totalHours (workload r) ≫= (fun hours =>
         (fun s => (hours / timeHorizon (config i)) * s)
           <$> seasonFactor (config i) month);
     MonthlyProjection.satisfaction :=
       Satisfaction.overall (satisfaction r)
         * (1 + (random (S calls) * 0.02 - 0.01)) |}.

(** The seasonal factor of a month within the table. *)
Definition tableAt (month : Z) : Q :=
  nth (Z.to_nat (month - 1)) getSeasonalityFactors 0.

Definition sampleBaselineMetrics : list Metric.t :=
  [ {| Metric.name := "revenue"; Metric.displayName := "Total Revenue";
       Metric.value := 1000; Metric.isPositive := true |};
    {| Metric.name := "net_position"; Metric.displayName := "Net Position";
       Metric.value := -50; Metric.isPositive := true |};
    {| Metric.name := "workload_staff"; Metric.displayName := "Staff Required";
       Metric.value := 4; Metric.isPositive := false |} ].

Definition sampleScenarioMetrics : list Metric.t :=
  [ {| Metric.name := "net_position"; Metric.displayName := "Net Position";
       Metric.value := -40; Metric.isPositive := true |};
    {| Metric.name := "revenue"; Metric.displayName := "Total Revenue";
       Metric.value := 1200; Metric.isPositive := true |} ].

Definition sampleRow : DeltaRow.t :=
  {| DeltaRow.name := "net_position";
     DeltaRow.displayName := "Net Position";
     DeltaRow.baseline := -50;
     DeltaRow.scenario := -40;
     DeltaRow.delta := -40 - -50;
     DeltaRow.percentChange := percentNonzero (-40 - -50) (-50);
     DeltaRow.isPositive := Qltb 0 (-40 - -50) |}.

Definition noEmptyTag (index : gmap string (gset string)) : Prop :=
  forall tag keys, index !! tag = Some keys -> keys <> ∅.

Definition sampleOptions : Cache.Options :=
  {| Cache.optionTags := Some ["tenant:demo"; "scenario:1"]; Cache.ttl := Some 60000 |}.

Definition sampleCache : Cache.t nat :=
  Cache.set "scenario:1:results" 7%nat (Some sampleOptions) 1000 1000 Cache.empty.

(** * Properties *)

(** ** The parameter aggregator *)

Section AggregationFacts.
Context `{JsCoercion}.

Lemma foldParameter_lookup key value aggregated k :
  foldParameter key value aggregated !! k =
    if decide (key = k)
    then Some (match value, aggregated !! key with
               | VNum v, Some old => halfSum old v
               | _, _ => value
               end)
    else aggregated !! k.
Proof.
  unfold foldParameter.
  destruct value, (aggregated !! key); rewrite lookup_insert; reflexivity.
Qed.

(** Folding one parameter set, keywise. *)
Lemma fold_parameters_lookup (params aggregated : gmap string JsValue) k :
  map_fold foldParameter aggregated params !! k =
    match params !! k with
    | None => aggregated !! k
    | Some value =>
        Some (match value, aggregated !! k with
              | VNum v, Some old => halfSum old v
              | _, _ => value
              end)
    end.
Proof.
  apply (map_fold_weak_ind
           (fun r (m : gmap string JsValue) =>
              r !! k = match m !! k with
                       | None => aggregated !! k
                       | Some value =>
                           Some (match value, aggregated !! k with
                                 | VNum v, Some old => halfSum old v
                                 | _, _ => value
                                 end)
                       end)).
  - rewrite lookup_empty. reflexivity.
  - intros i x m r Hm IH.
    rewrite foldParameter_lookup, lookup_insert.
    destruct (decide (i = k)) as [->|Hne]; [|exact IH].
    rewrite Hm in IH. rewrite IH. reflexivity.
Qed.

(** Applying one override map, keywise. *)
Lemma fold_overrides_lookup (o aggregated : gmap string JsValue) k :
  map_fold applyOverride aggregated o !! k =
    match o !! k with
    | None => aggregated !! k
    | Some value => Some value
    end.
Proof.
  apply (map_fold_weak_ind
           (fun r (m : gmap string JsValue) =>
              r !! k = match m !! k with
                       | None => aggregated !! k
                       | Some value => Some value
                       end)).
  - rewrite lookup_empty. reflexivity.
  - intros i x m r Hm IH. unfold applyOverride.
    rewrite !lookup_insert.
    destruct (decide (i = k)); [reflexivity | exact IH].
Qed.

Lemma foldContribution_override aggregated c key v :
  overrideAt key c = Some v ->
  foldContribution aggregated c !! key = Some v.
Proof.
  unfold overrideAt, foldContribution. intros Hov.
  destruct (overrides c) as [o|]; [|discriminate].
  rewrite fold_overrides_lookup, Hov. reflexivity.
Qed.

Lemma foldContribution_silent aggregated c key :
  silentOn key c ->
  foldContribution aggregated c !! key = aggregated !! key.
Proof.
  unfold silentOn, overrideAt, foldContribution. intros [Hp Hov].
  destruct (overrides c) as [o|].
  - rewrite fold_overrides_lookup, Hov, fold_parameters_lookup, Hp. reflexivity.
  - rewrite fold_parameters_lookup, Hp. reflexivity.
Qed.

Lemma fold_silent key post : forall aggregated,
  Forall (silentOn key) post ->
  fold_left foldContribution post aggregated !! key = aggregated !! key.
Proof.
  induction post as [|c post IH]; intros aggregated Hall; [reflexivity|].
  inversion Hall as [|? ? Hc Hpost]; subst. simpl.
  rewrite IH by assumption. apply foldContribution_silent, Hc.
Qed.

(** C2, as amended. Aggregating the contributions that set [fineAmount]
    to 100, 200 and 300 in this order, none with overrides, yields the
    running pairwise average ((100+200)/2 + 300)/2, which is 225, and not
    the mean 200. *)
Theorem aggregate_running_average :
  exists n : Q,
    aggregateParameters
      [contribution (fineOnly 100) None;
       contribution (fineOnly 200) None;
       contribution (fineOnly 300) None] !! "fineAmount" = Some (VNum n)
    /\ n == ((100 + 200) / 2 + 300) / 2
    /\ n == 225
    /\ ~ n == 200.
Proof.
  eexists. split; [vm_compute; reflexivity|].
  split; [reflexivity|]. split; [reflexivity|].
  intros Heq. vm_compute in Heq. discriminate Heq.
Qed.

Lemma foldContribution_number aggregated c key old w :
  aggregated !! key = Some old ->
  parameters (policy c) !! key = Some (VNum w) ->
  overrideAt key c = None ->
  foldContribution aggregated c !! key = Some (halfSum old w).
Proof.
  unfold overrideAt, foldContribution. intros Hold Hw Hov.
  destruct (overrides c) as [o|].
  - rewrite fold_overrides_lookup, Hov, fold_parameters_lookup, Hw, Hold.
    reflexivity.
  - rewrite fold_parameters_lookup, Hw, Hold. reflexivity.
Qed.

Lemma lastOverride_silent key post :
  Forall (silentOn key) post -> lastOverride key post = None.
Proof.
  induction 1 as [|c post [_ Hc] _ IH]; [reflexivity|].
  simpl. rewrite IH. exact Hc.
Qed.

Lemma lastOverride_app key pre c post v :
  overrideAt key c = Some v ->
  Forall (silentOn key) post ->
  lastOverride key (pre ++ c :: post) = Some v.
Proof.
  intros Hov Hpost. induction pre as [|a pre IH]; simpl.
  - rewrite (lastOverride_silent _ _ Hpost). exact Hov.
  - rewrite IH. reflexivity.
Qed.

(** C3, as amended. For a key that is none of the names a plain object
    inherits: the overrides of a contribution are written when that
    contribution is folded, before the next contribution; the override
    that the last overriding contribution carries for the key is the
    final value of the key whenever no later contribution mentions the
    key, and a later contribution that sets the key to a number has that
    number averaged with a numeric override. *)
Theorem override_final_when_not_set_later :
  forall (pre post : list PolicyContribution) (c : PolicyContribution)
         (key : string) (v : JsValue),
    ownName key = true ->
    overrideAt key c = Some v ->
    Forall (silentOn key) post ->
    lastOverride key (pre ++ c :: post) = Some v
    /\ aggregateParameters (pre ++ c :: post) !! key = Some v
    /\ forall (later : PolicyContribution) (a w : Q),
         v = VNum a ->
         parameters (policy later) !! key = Some (VNum w) ->
         overrideAt key later = None ->
         lastOverride key (pre ++ c :: later :: post) = Some v
         /\ aggregateParameters (pre ++ c :: later :: post) !! key
            = Some (VNum ((a + w) / 2)).
Proof.
  intros pre post c key v _ Hov Hpost.
  split; [apply lastOverride_app; assumption|]. split.
  - unfold aggregateParameters. rewrite fold_left_app. simpl.
    rewrite fold_silent by assumption.
    apply foldContribution_override, Hov.
  - intros later a w -> Hw Hnone. split.
    + induction pre as [|b pre IH]; simpl.
      * rewrite (lastOverride_silent _ _ Hpost), Hnone. exact Hov.
      * rewrite IH. reflexivity.
    + unfold aggregateParameters. rewrite fold_left_app. simpl.
      rewrite fold_silent by assumption.
      rewrite (foldContribution_number _ _ _ (VNum a) w); [reflexivity| |assumption..].
      apply foldContribution_override, Hov.
Qed.

End AggregationFacts.

(** ** Parameters that hold no text *)

Section TextFree.
Context `{JsCoercion}.

Lemma foldContribution_textFree aggregated c key :
  textFree aggregated key = true ->
  textFreeAt key c = true ->
  textFree (foldContribution aggregated c) key = true.
Proof.
  unfold textFreeAt, textFree, foldContribution. intros Hagg Hc.
  apply andb_prop in Hc as [Hp Ho].
  assert (Hfold : match map_fold foldParameter aggregated (parameters (policy c)) !! key with
                  | Some (VStr _) => false
                  | _ => true
                  end = true).
  { rewrite fold_parameters_lookup.
    destruct (parameters (policy c) !! key) as [[v|t|b]|];
      [|discriminate Hp| |exact Hagg].
    - destruct (aggregated !! key) as [[a|t|b]|]; reflexivity.
    - reflexivity. }
  destruct (overrides c) as [o|]; [|exact Hfold].
  rewrite fold_overrides_lookup.
  destruct (o !! key) as [[v|t|b]|]; [reflexivity|discriminate Ho|reflexivity|exact Hfold].
Qed.

Lemma fold_textFree key policies : forall aggregated,
  textFree aggregated key = true ->
  forallb (textFreeAt key) policies = true ->
  textFree (fold_left foldContribution policies aggregated) key = true.
Proof.
  induction policies as [|c policies IH]; intros aggregated Hagg Hall; [exact Hagg|].
  simpl in Hall. apply andb_prop in Hall as [Hc Hrest]. simpl.
  apply IH; [|exact Hrest]. apply foldContribution_textFree; assumption.
Qed.

Lemma textFreePolicies_textFreeAt keys policies key :
  textFreePolicies keys policies = true ->
  In key keys ->
  forallb (textFreeAt key) policies = true.
Proof.
  unfold textFreePolicies. intros Hall Hkey.
  apply forallb_forall. intros c Hc.
  rewrite forallb_forall in Hall. specialize (Hall c Hc).
  rewrite forallb_forall in Hall. exact (Hall key Hkey).
Qed.

(** The aggregate of contributions that hold no text under some keys
    holds none under them. *)
Lemma aggregate_textFree keys policies key :
  textFreePolicies keys policies = true ->
  In key keys ->
  textFree (aggregateParameters policies) key = true.
Proof.
  intros Hall Hkey. unfold aggregateParameters.
  apply fold_textFree; [reflexivity|].
  apply (textFreePolicies_textFreeAt keys); assumption.
Qed.

End TextFree.

(** C2, as stated, fails: the aggregated [fineAmount] is a number
    different from 187.5. *)
Lemma aggregate_not_187_5 :
  ~ exists n : Q,
      aggregateParameters
        [contribution (fineOnly 100) None;
         contribution (fineOnly 200) None;
         contribution (fineOnly 300) None] !! "fineAmount" = Some (VNum n)
      /\ n == 187.5.
Proof.
  intros [n [Hn Heq]]. vm_compute in Hn.
  injection Hn as <-. vm_compute in Heq. discriminate Heq.
Qed.

(** C3, as stated, fails: the first contribution overrides [fineAmount]
    with 500 and is the last to override it, yet the second contribution's
    ordinary value 300 is averaged with it. *)
Lemma override_averaged_by_later_value :
  let policies :=
    [contribution (fineOnly 100) (Some (fineOnly 500));
     contribution (fineOnly 300) None] in
  lastOverride "fineAmount" policies = Some (VNum 500)
  /\ exists n : Q,
       aggregateParameters policies !! "fineAmount" = Some (VNum n)
       /\ n == 400 /\ ~ n == 500.
Proof.
  split; [reflexivity|].
  eexists. split; [vm_compute; reflexivity|].
  split; [reflexivity|].
  intros Heq. vm_compute in Heq. discriminate Heq.
Qed.

Lemma override_final_when_not_set_later_witness :
  aggregateParameters
    ([contribution (fineOnly 100) None]
       ++ contribution (fineOnly 200) (Some (fineOnly 500))
       :: [contribution {[ "taxRate" := VNum 2 ]} None]) !! "fineAmount"
  = Some (VNum 500).
Proof.
  assert (Hov : overrideAt "fineAmount"
                  (contribution (fineOnly 200) (Some (fineOnly 500)))
                = Some (VNum 500)) by reflexivity.
  assert (Hpost : Forall (silentOn "fineAmount")
                    [contribution {[ "taxRate" := VNum 2 ]} None])
    by (repeat constructor).
  assert (Hown : ownName "fineAmount" = true) by reflexivity.
  exact (proj1 (proj2 (override_final_when_not_set_later
                         [contribution (fineOnly 100) None] _ _ _ _
                         Hown Hov Hpost))).
Defined.

(** ** The stages as seen from a run *)

Section RunFacts.
Context `{JsCoercion}.

Lemma simulate_revenue random i :
  revenue (simulate random i) = revenueWith (aggregateParameters (policies i)) i.
Proof. reflexivity. Qed.

Lemma simulate_compliance random i :
  compliance (simulate random i)
  = complianceWith (aggregateParameters (policies i)) i.
Proof. reflexivity. Qed.

Lemma simulate_satisfaction random i :
  satisfaction (simulate random i)
  = satisfactionWith (aggregateParameters (policies i)) i.
Proof. reflexivity. Qed.

Lemma simulate_workload random i :
  workload (simulate random i)
  = workloadWith (aggregateParameters (policies i)) i
      (Compliance.overall (complianceWith (aggregateParameters (policies i)) i)).
Proof. reflexivity. Qed.

(** ** Revenue *)

Lemma revenueOfGroup_fees params cfg groups : forall acc,
  totalFees (fold_left (revenueOfGroup params cfg) groups acc) = totalFees acc.
Proof.
  induction groups as [|g groups IH]; intros acc; [reflexivity|].
  simpl. rewrite IH. reflexivity.
Qed.

Lemma revenueOfBusiness_fees params cfg businesses : forall acc,
  totalFees (fold_left (revenueOfBusiness params cfg) businesses acc) = totalFees acc.
Proof.
  induction businesses as [|b businesses IH]; intros acc; [reflexivity|].
  simpl. rewrite IH. reflexivity.
Qed.

Lemma revenueTotals_fees params i : totalFees (revenueTotals params i) = 0.
Proof.
  unfold revenueTotals.
  rewrite revenueOfBusiness_fees, revenueOfGroup_fees. reflexivity.
Qed.

(** C5. The revenue of a run has a total equal to the sum of its four
    components, and its fee component is zero whatever the parameters,
    [feeAmount] included, are. *)
Theorem revenue_total_is_sum_and_no_fees :
  forall (random : RandomSource) (i : SimulationInput),
    let r := revenue (simulate random i) in
    Revenue.total r
      == Revenue.fromFines r + Revenue.fromPermits r
         + Revenue.fromTaxes r + Revenue.fromFees r
    /\ Revenue.fromFees r == 0.
Proof.
  intros random i. rewrite simulate_revenue. unfold revenueWith. simpl.
  rewrite revenueTotals_fees. split; ring.
Qed.

End RunFacts.

(** ** The worked scenario *)

Section Scenario.
Context `{JsCoercion}.

Lemma scenario_effective_parameters :
  aggregateParameters [contribution scenarioParameters None] = scenarioParameters.
Proof. apply map_eq. intros k. vm_compute. reflexivity. Qed.

(** C6. On the single-group scenario the revenue stage has detection rate
    0.46, fines 13800, permits 15000, taxes 750000 and total 778800, with
    growth factor 1. *)
Theorem scenario_revenue :
  forall (random : RandomSource) (populationGrowth : Q),
    let i := scenarioInput populationGrowth in
    let r := revenue (simulate random i) in
    getDetectionRate (aggregateParameters (policies i)) == 0.46
    /\ Revenue.fromFines r == 13800
    /\ Revenue.fromPermits r == 15000
    /\ Revenue.fromTaxes r == 750000
    /\ Revenue.total r == 778800
    /\ 1 + (economicGrowth (config i) / 100) * (timeHorizon (config i) / 12) == 1.
Proof.
  intros random populationGrowth. cbv zeta. rewrite simulate_revenue.
  repeat split; vm_compute; reflexivity.
Qed.

End Scenario.

(** ** Scenario comparison *)

Lemma Qltb_true x y : Qltb x y = true <-> x < y.
Proof.
  unfold Qltb. rewrite negb_true_iff, <- not_true_iff_false, Qle_bool_iff.
  split; [apply Qnot_le_lt | apply Qlt_not_le].
Qed.

Lemma Qltb_false x y : Qltb x y = false <-> y <= x.
Proof.
  unfold Qltb. rewrite negb_false_iff. apply Qle_bool_iff.
Qed.

Lemma percentOf_positive delta base :
  0 < base -> percentOf delta base = (delta / base) * 100.
Proof.
  intros Hb. unfold percentOf. apply Qltb_true in Hb. rewrite Hb. reflexivity.
Qed.

Lemma percentOf_not_positive delta base :
  base <= 0 -> percentOf delta base = 0.
Proof.
  intros Hb. unfold percentOf. apply Qltb_false in Hb. rewrite Hb. reflexivity.
Qed.

(** C7. On a baseline value that is negative the comparator does not
    follow the rule claimed: with a baseline revenue of -100 and a
    scenario revenue of 0 the delta is 100 and the baseline is not zero,
    yet the percent change is 0 where delta / baseline * 100 is -100.
    The comparison by metric name applies the rule claimed to the same
    two values and gives -100. *)
Theorem percent_zero_on_negative_baseline :
  let base := kpiMetrics (-100) 0.5 10 50 in
  let r := compareScenario base (scenarioOf (kpiMetrics 0 0.5 10 50)) in
  KPI.revenue (delta r) == 100
  /\ ~ Revenue.total (revenue base) == 0
  /\ KPI.revenue (percentChange r) == 0
  /\ KPI.revenue (delta r) / Revenue.total (revenue base) * 100 == -100
  /\ ~ KPI.revenue (percentChange r)
       == KPI.revenue (delta r) / Revenue.total (revenue base) * 100
  /\ percentNonzero (KPI.revenue (delta r)) (Revenue.total (revenue base)) == -100.
Proof.
  cbv zeta. split; [reflexivity|].
  split; [intros Heq; vm_compute in Heq; discriminate Heq|].
  split; [reflexivity|]. split; [reflexivity|].
  split; [intros Heq; vm_compute in Heq; discriminate Heq|].
  reflexivity.
Qed.

(** ** Permit renewals *)

Section PermitRenewals.
Context `{JsCoercion}.

Lemma orDefault_number (params : gmap string JsValue) key n d :
  params !! key = Some (VNum n) ->
  orDefault (params !! key) d = if Qeq_bool n 0 then d else n.
Proof.
  intros Hk. rewrite Hk. simpl. destruct (Qeq_bool n 0); reflexivity.
Qed.

Lemma divisor_nonzero (params : gmap string JsValue) :
  (params !! "permitDuration" = None
   \/ exists n, params !! "permitDuration" = Some (VNum n)) ->
  ~ orDefault (params !! "permitDuration") 365 / 30 == 0.
Proof.
  intros [Habsent | [n Hn]].
  - rewrite Habsent. simpl. intros Heq. vm_compute in Heq. discriminate Heq.
  - rewrite (orDefault_number _ _ _ _ Hn).
    destruct (Qeq_bool n 0) eqn:Hz.
    + intros Heq. vm_compute in Heq. discriminate Heq.
    + apply Qeq_bool_neq in Hz. intros Heq. apply Hz.
      assert (Hn30 : n == n / 30 * 30) by (field).
      rewrite Hn30, Heq. ring.
Qed.

Lemma permitRenewalsPerYear_zero (params : gmap string JsValue) :
  params !! "permitDuration" = Some (VNum 0) ->
  permitRenewalsPerYear params = Some (12 / (365 / 30)).
Proof.
  intros Hzero. unfold permitRenewalsPerYear. rewrite Hzero. reflexivity.
Qed.

Lemma permitRenewalsPerYear_Some (params : gmap string JsValue) :
  (params !! "permitDuration" = None
   \/ exists n, params !! "permitDuration" = Some (VNum n)) ->
  permitRenewalsPerYear params
  = Some (12 / (orDefault (params !! "permitDuration") 365 / 30)).
Proof.
  intros Hnum. unfold permitRenewalsPerYear, divide.
  destruct (Qeq_bool (orDefault (params !! "permitDuration") 365 / 30) 0) eqn:Hz;
    [|reflexivity].
  apply Qeq_bool_iff in Hz. destruct (divisor_nonzero params Hnum Hz).
Qed.

Lemma permitRenewalsPerYear_text (params : gmap string JsValue) (s : string) :
  params !! "permitDuration" = Some (VStr s) ->
  s <> EmptyString ->
  Number_of_string s == 0 ->
  permitRenewalsPerYear params = None.
Proof.
  intros Hs Hnonempty Hzero. unfold permitRenewalsPerYear, divide.
  rewrite Hs. simpl.
  apply String.eqb_neq in Hnonempty. rewrite Hnonempty. simpl.
  assert (Hdiv : Qeq_bool (Number_of_string s / 30) 0 = true).
  { apply Qeq_bool_iff. rewrite Hzero. reflexivity. }
  rewrite Hdiv. reflexivity.
Qed.

(** C8, as amended. The permit-processing division is
    12 / ((permitDuration || 365) / 30).  A [permitDuration] that is the
    number 0 is replaced by the default 365, as an absent one is, so the
    divisor is then 365 / 30 and the division is not by zero.  Nothing
    else guards the division: a [permitDuration] that is a text other
    than the empty one and reads as zero, as "0" does, makes the divisor
    0 and the division by zero is performed. *)
Theorem permit_division_guarded_at_zero_only :
  forall params : gmap string JsValue,
    (forall n, params !! "permitDuration" = Some (VNum n) -> n == 0 ->
       orDefault (params !! "permitDuration") 365 = 365
       /\ permitRenewalsPerYear params = Some (12 / (365 / 30)))
    /\ (params !! "permitDuration" = None ->
        permitRenewalsPerYear params = Some (12 / (365 / 30)))
    /\ (forall s, params !! "permitDuration" = Some (VStr s) ->
        s <> EmptyString -> Number_of_string s == 0 ->
        orDefault (params !! "permitDuration") 365 / 30 == 0
        /\ permitRenewalsPerYear params = None).
Proof.
  intros params. split; [|split].
  - intros n Hn Hzero.
    rewrite (permitRenewalsPerYear_Some params) by (right; exists n; exact Hn).
    rewrite (orDefault_number _ _ _ _ Hn).
    apply Qeq_bool_iff in Hzero. rewrite Hzero. split; reflexivity.
  - intros Hnone.
    rewrite (permitRenewalsPerYear_Some params) by (left; exact Hnone).
    rewrite Hnone. reflexivity.
  - intros s Hs Hnonempty Hzero. split.
    + rewrite Hs. simpl.
      apply String.eqb_neq in Hnonempty. rewrite Hnonempty. simpl.
      rewrite Hzero. reflexivity.
    + apply (permitRenewalsPerYear_text params s); assumption.
Qed.

End PermitRenewals.

(** C8, as stated, fails: no parameter map with a [permitDuration] of 0
    reaches the division by zero. *)
Lemma permit_duration_zero_is_guarded :
  ~ exists params : gmap string JsValue,
      params !! "permitDuration" = Some (VNum 0)
      /\ permitRenewalsPerYear params = None.
Proof.
  intros [params [Hzero Hnone]].
  rewrite (permitRenewalsPerYear_zero params Hzero) in Hnone.
  discriminate Hnone.
Qed.

Lemma permit_division_guarded_at_zero_only_witness :
  permitRenewalsPerYear {[ "permitDuration" := VNum 0 ]} = Some (12 / (365 / 30))
  /\ permitRenewalsPerYear {[ "permitDuration" := VStr "0" ]} = None.
Proof.
  assert (Hzero : 0 == 0) by reflexivity.
  assert (Htext : "0" <> EmptyString) by discriminate.
  split.
  - exact (proj2 (proj1 (permit_division_guarded_at_zero_only
                           {[ "permitDuration" := VNum 0 ]}) 0 eq_refl Hzero)).
  - exact (proj2 (proj2 (proj2 (permit_division_guarded_at_zero_only
                                  {[ "permitDuration" := VStr "0" ]}))
                    "0"%string eq_refl Htext Hzero)).
Defined.

(** ** Monthly projections *)

Lemma seasonFactor_unset cfg month :
  includeSeasonality cfg = false -> seasonFactor cfg month = Some 1.
Proof. intros Hflag. unfold seasonFactor. rewrite Hflag. reflexivity. Qed.

(** Within the first twelve months the table entry read is the entry
    [(month - 1) mod 12]. *)
Lemma seasonFactor_within_table cfg month :
  includeSeasonality cfg = true ->
  (1 <= month <= 12)%Z ->
  seasonFactor cfg month = getSeasonalityFactors !! Z.to_nat ((month - 1) mod 12)
  /\ is_Some (seasonFactor cfg month).
Proof.
  intros Hflag Hrange. unfold seasonFactor. rewrite Hflag.
  rewrite Z.mod_small by lia. split; [reflexivity|].
  apply lookup_lt_is_Some. simpl. lia.
Qed.

Lemma projections_deterministic i r (random1 random2 : RandomSource) months :
  forall st1 st2 : ProjectionLoop,
    map deterministicPart (pushed st1) = map deterministicPart (pushed st2) ->
    map deterministicPart (pushed (fold_left (projectMonth i r random1) months st1))
    = map deterministicPart (pushed (fold_left (projectMonth i r random2) months st2)).
Proof.
  induction months as [|month months IH]; intros st1 st2 Hst; [exact Hst|].
  simpl. apply IH. unfold projectMonth. simpl.
  rewrite !map_app, Hst. reflexivity.
Qed.

Section ProjectionFacts.
Context `{JsCoercion}.

(** C4, on the code: with the seasonality flag set and a horizon of 13
    months, the thirteenth month is projected, the table read for it is
    past the end of the table, where entry [(13 - 1) mod 12] is 0.85, and
    the month's revenue and workload are not numbers. *)
Theorem seasonal_table_does_not_wrap :
  forall random : RandomSource,
    In 13%Z (loopMonths (timeHorizon (config longHorizonInput)))
    /\ seasonFactor (config longHorizonInput) 13 = None
    /\ getSeasonalityFactors !! Z.to_nat ((13 - 1) mod 12) = Some 0.85
    /\ exists p : MonthlyProjection.t,
         monthlyProjections (simulate random longHorizonInput) !! 12%nat = Some p
         /\ MonthlyProjection.month p = 13%Z
         /\ MonthlyProjection.revenue p = None
         /\ MonthlyProjection.workload p = None.
Proof.
  intros random. split; [vm_compute; tauto|].
  split; [reflexivity|]. split; [reflexivity|].
  eexists. split; [vm_compute; reflexivity|].
  repeat split.
Qed.

(** C9. Two runs from the same engine state under any two random
    sources agree on the four KPI groups with their breakdown maps and on
    the month, revenue and workload of every monthly projection entry;
    only the compliance and satisfaction fields of the entries read the
    random source. *)
Theorem runs_agree_outside_jitter :
  forall (random1 random2 : RandomSource) (e : SimulationEngine),
    let m1 := results (run random1 e) in
    let m2 := results (run random2 e) in
    input (run random1 e) = input (run random2 e)
    /\ revenue m1 = revenue m2
    /\ compliance m1 = compliance m2
    /\ workload m1 = workload m2
    /\ satisfaction m1 = satisfaction m2
    /\ length (monthlyProjections m1) = length (monthlyProjections m2)
    /\ map deterministicPart (monthlyProjections m1)
       = map deterministicPart (monthlyProjections m2).
Proof.
  intros random1 random2 e. cbv zeta.
  assert (Hdet : map deterministicPart (monthlyProjections (results (run random1 e)))
                 = map deterministicPart (monthlyProjections (results (run random2 e)))).
  { unfold run, generateMonthlyProjections. simpl.
    apply projections_deterministic. reflexivity. }
  repeat split; try reflexivity; [|exact Hdet].
  rewrite <- (length_map deterministicPart), Hdet. apply length_map.
Qed.

End ProjectionFacts.

(** The jitter is real: two random sources give different compliance
    projections for the first month of the worked scenario. *)
Lemma jitter_differs :
  let first random :=
    MonthlyProjection.compliance
      <$> (monthlyProjections (simulate random (scenarioInput 0)) !! 0%nat) in
  exists c1 c2 : Q,
    first (fun _ => 0) = Some c1 /\ first (fun _ => 1 # 2) = Some c2 /\ ~ c1 == c2.
Proof.
  cbv zeta. eexists. eexists.
  split; [vm_compute; reflexivity|]. split; [vm_compute; reflexivity|].
  intros Heq. vm_compute in Heq. discriminate Heq.
Qed.

(** ** Falsy values and defaults *)

Lemma fold_left_pointwise {A B : Type} (f g : A -> B -> A) (l : list B) :
  (forall a b, f a b = g a b) ->
  forall a, fold_left f l a = fold_left g l a.
Proof.
  intros Hfg. induction l as [|b l IH]; intros a; [reflexivity|].
  simpl. rewrite Hfg. apply IH.
Qed.

Lemma numOr_zero n d : n == 0 -> numOr (Some n) d = d.
Proof.
  intros Hz. apply Qeq_bool_iff in Hz. simpl. rewrite Hz. reflexivity.
Qed.

Section SameReads.
Context `{JsCoercion}.
Variables params params' : gmap string JsValue.
Hypothesis same_reads :
  forall key d, orDefault (params !! key) d = orDefault (params' !! key) d.

Lemma citizenAdjustedCompliance_same g :
  citizenAdjustedCompliance params g = citizenAdjustedCompliance params' g.
Proof. unfold citizenAdjustedCompliance. rewrite !same_reads. reflexivity. Qed.

Lemma businessAdjustedCompliance_same b :
  businessAdjustedCompliance params b = businessAdjustedCompliance params' b.
Proof. unfold businessAdjustedCompliance. rewrite !same_reads. reflexivity. Qed.

Lemma complianceWith_same i : complianceWith params i = complianceWith params' i.
Proof.
  unfold complianceWith.
  rewrite (fold_left_pointwise (complianceOfGroup params) (complianceOfGroup params'))
    by (intros a g; unfold complianceOfGroup;
        rewrite citizenAdjustedCompliance_same; reflexivity).
  rewrite (fold_left_pointwise (complianceOfBusiness params)
             (complianceOfBusiness params'))
    by (intros a b; unfold complianceOfBusiness;
        rewrite businessAdjustedCompliance_same; reflexivity).
  reflexivity.
Qed.

Lemma groupSatisfaction_same g :
  groupSatisfaction params g = groupSatisfaction params' g.
Proof.
  unfold groupSatisfaction, satisfactionFineImpact, satisfactionPermitImpact,
    satisfactionTaxImpact, satisfactionGraceImpact.
  rewrite !same_reads. reflexivity.
Qed.

Lemma businessSatisfaction_same b :
  businessSatisfaction params b = businessSatisfaction params' b.
Proof.
  unfold businessSatisfaction, satisfactionFineImpact, satisfactionPermitImpact,
    satisfactionTaxImpact.
  rewrite !same_reads. reflexivity.
Qed.

Lemma satisfactionWith_same i : satisfactionWith params i = satisfactionWith params' i.
Proof.
  unfold satisfactionWith.
  rewrite (fold_left_pointwise (satisfactionOfGroup params)
             (satisfactionOfGroup params'))
    by (intros a g; unfold satisfactionOfGroup;
        rewrite groupSatisfaction_same; reflexivity).
  rewrite (fold_left_pointwise (satisfactionOfBusiness params)
             (satisfactionOfBusiness params'))
    by (intros a b; unfold satisfactionOfBusiness;
        rewrite businessSatisfaction_same; reflexivity).
  reflexivity.
Qed.

Lemma workloadWith_same i overallCompliance :
  workloadWith params i overallCompliance = workloadWith params' i overallCompliance.
Proof.
  unfold workloadWith, permitRenewalsPerYear. cbv zeta.
  rewrite (fold_left_pointwise (inspectionsOfGroup params (config i))
             (inspectionsOfGroup params' (config i)))
    by (intros a g; unfold inspectionsOfGroup; rewrite same_reads; reflexivity).
  rewrite (fold_left_pointwise (inspectionsOfBusiness params (config i))
             (inspectionsOfBusiness params' (config i)))
    by (intros a b; unfold inspectionsOfBusiness; rewrite same_reads; reflexivity).
  rewrite !same_reads. reflexivity.
Qed.

End SameReads.

Section Defaults.
Context `{JsCoercion}.

Lemma reads_ignore_zero (params : gmap string JsValue) name n :
  params !! name = Some (VNum n) -> n == 0 ->
  forall key d,
    orDefault (params !! key) d = orDefault (delete name params !! key) d.
Proof.
  intros Hn Hz key d. destruct (decide (name = key)) as [<-|Hne].
  - rewrite lookup_delete_eq, Hn. simpl.
    apply Qeq_bool_iff in Hz. rewrite Hz. reflexivity.
  - rewrite lookup_delete_ne by assumption. reflexivity.
Qed.


End Defaults.


(** ** Bounds on compliance and satisfaction *)

Section Bounds.
Variables lo hi : Q.
Hypothesis lo_le_hi : lo <= hi.

Lemma clamp_within x : within lo hi (Qmin hi (Qmax lo x)).
Proof.
  split.
  - apply Q.min_glb; [exact lo_le_hi | apply Q.le_max_l].
  - apply Q.le_min_l.
Qed.

Lemma accumulate_balanced acc name value size :
  balanced lo hi acc -> within lo hi value -> 0 <= size ->
  balanced lo hi (accumulate acc name value size).
Proof.
  intros (Hw & Hlo & Hhi & Hmap) [Hvlo Hvhi] Hsize.
  unfold balanced, accumulate. simpl. split; [|split; [|split]].
  - lra.
  - nra.
  - nra.
  - apply map_Forall_insert_2; [split; assumption | exact Hmap].
Qed.

Lemma fold_balanced {A : Type} (name : A -> string) (value size : A -> Q)
    (l : list A) :
  Forall (fun x => within lo hi (value x) /\ 0 <= size x) l ->
  forall acc, balanced lo hi acc ->
    balanced lo hi
      (fold_left (fun acc x => accumulate acc (name x) (value x) (size x)) l acc).
Proof.
  induction 1 as [|x l [Hv Hs] _ IH]; intros acc Hacc; [exact Hacc|].
  simpl. apply IH, accumulate_balanced; assumption.
Qed.

Lemma averageOr_within acc fallback :
  balanced lo hi acc -> within lo hi fallback ->
  within lo hi (averageOr acc fallback).
Proof.
  intros (Hw & Hlo & Hhi & _) Hfallback. unfold averageOr.
  destruct (Qltb 0 (weight acc)) eqn:Hpos; [|exact Hfallback].
  apply Qltb_true in Hpos. split.
  - apply Qle_shift_div_l; assumption.
  - apply Qle_shift_div_r; assumption.
Qed.

Lemma mean_within a b : within lo hi a -> within lo hi b -> within lo hi ((a + b) / 2).
Proof.
  intros [Ha1 Ha2] [Hb1 Hb2]. split.
  - apply Qle_shift_div_l; lra.
  - apply Qle_shift_div_r; lra.
Qed.

End Bounds.

Lemma balanced_start lo hi (m : gmap string Q) :
  map_Forall (fun _ v => within lo hi v) m ->
  balanced lo hi {| weightedSum := 0; weight := 0; byName := m |}.
Proof.
  intros Hm. unfold balanced. simpl. split; [|split; [|split]]; [lra..|exact Hm].
Qed.

Lemma size_nonneg (z : Z) : (0 <= z)%Z -> 0 <= inject_Z z.
Proof. intros Hz. change 0 with (inject_Z 0). rewrite <- Zle_Qle. exact Hz. Qed.

Section ComplianceAndSatisfactionBounds.
Context `{JsCoercion}.
Variable params : gmap string JsValue.
Variable i : SimulationInput.
Hypothesis valid : validInput i.

Lemma citizen_loop_balanced (lo hi : Q) (value : CitizenGroup.t -> Q) :
  (forall g, within lo hi (value g)) ->
  balanced lo hi
    (fold_left
       (fun acc g =>
          accumulate acc (CitizenGroup.name g) (value g)
            (inject_Z (CitizenGroup.population g)))
       (citizenGroups i)
       {| weightedSum := 0; weight := 0; byName := ∅ |}).
Proof.
  intros Hvalue. apply fold_balanced.
  - destruct valid as [Hgroups _].
    induction Hgroups as [|g l [Hpop _] _ IH]; constructor; [|exact IH].
    split; [apply Hvalue | apply size_nonneg, Hpop].
  - apply balanced_start, map_Forall_empty.
Qed.

Lemma business_loop_balanced (lo hi : Q) (value : BusinessCategory.t -> Q)
    (m : gmap string Q) :
  (forall b, within lo hi (value b)) ->
  map_Forall (fun _ v => within lo hi v) m ->
  balanced lo hi
    (fold_left
       (fun acc b =>
          accumulate acc (BusinessCategory.name b) (value b)
            (inject_Z (BusinessCategory.count b)))
       (businessCategories i)
       {| weightedSum := 0; weight := 0; byName := m |}).
Proof.
  intros Hvalue Hm. apply fold_balanced.
  - destruct valid as [_ Hbusinesses].
    induction Hbusinesses as [|b l [Hcount _] _ IH]; constructor; [|exact IH].
    split; [apply Hvalue | apply size_nonneg, Hcount].
  - apply balanced_start, Hm.
Qed.

Lemma complianceWith_within :
  let c := complianceWith params i in
  within 0 1 (Compliance.overall c)
  /\ within 0 1 (Compliance.citizen c)
  /\ within 0 1 (Compliance.business c)
  /\ map_Forall (fun _ v => within 0 1 v) (Compliance.byCategory c).
Proof.
  assert (H01 : 0 <= 1) by lra.
  pose proof (citizen_loop_balanced 0 1 (citizenAdjustedCompliance params)
                (fun g => clamp_within 0 1 H01 _)) as Hcitizens.
  pose proof (business_loop_balanced 0 1 (businessAdjustedCompliance params) _
                (fun b => clamp_within 0 1 H01 _)
                (proj2 (proj2 (proj2 Hcitizens)))) as Hbusinesses.
  assert (Hzero : within 0 1 0) by (split; lra).
  cbv zeta. unfold complianceWith. simpl.
  split; [|split; [|split]].
  - apply mean_within; apply averageOr_within; assumption.
  - apply averageOr_within; assumption.
  - apply averageOr_within; assumption.
  - exact (proj2 (proj2 (proj2 Hbusinesses))).
Qed.

Lemma satisfactionWith_within :
  let s := satisfactionWith params i in
  within 0 100 (Satisfaction.overall s)
  /\ within 0 100 (Satisfaction.citizen s)
  /\ within 0 100 (Satisfaction.business s)
  /\ map_Forall (fun _ v => within 0 100 v) (Satisfaction.byDemographic s).
Proof.
  assert (H0100 : 0 <= 100) by lra.
  pose proof (citizen_loop_balanced 0 100 (groupSatisfaction params)
                (fun g => clamp_within 0 100 H0100 _)) as Hcitizens.
  pose proof (business_loop_balanced 0 100 (businessSatisfaction params) _
                (fun b => clamp_within 0 100 H0100 _)
                (proj2 (proj2 (proj2 Hcitizens)))) as Hbusinesses.
  assert (Hbase : within 0 100 baseSatisfaction) by (unfold baseSatisfaction; split; lra).
  cbv zeta. unfold satisfactionWith. simpl.
  split; [|split; [|split]].
  - apply mean_within; apply averageOr_within; assumption.
  - apply averageOr_within; assumption.
  - apply averageOr_within; assumption.
  - exact (proj2 (proj2 (proj2 Hbusinesses))).
Qed.

End ComplianceAndSatisfactionBounds.

(** ** The compliance stage over numbers that need not be finite *)

Section FiniteCompliance.
Context `{JsCoercion}.
Variable Number : string -> JsNumber.

Lemma readOr_finite (params : gmap string JsValue) key d :
  textFree params key = true ->
  readOr Number (params !! key) d = Finite (orDefault (params !! key) d).
Proof.
  unfold textFree, readOr, orDefault.
  destruct (params !! key) as [[n|t|b]|]; intros Hfree;
    [|discriminate Hfree| |reflexivity].
  - destruct (truthy (VNum n)); reflexivity.
  - destruct (truthy (VBool b)); reflexivity.
Qed.

Variable params : gmap string JsValue.
Hypothesis fine_free : textFree params "fineAmount" = true.
Hypothesis inspection_free : textFree params "inspectionFrequency" = true.
Hypothesis permit_free : textFree params "permitDuration" = true.

Lemma citizenAdjustedComplianceJs_finite group :
  citizenAdjustedComplianceJs Number params group
  = Finite (citizenAdjustedCompliance params group).
Proof.
  unfold citizenAdjustedComplianceJs, citizenAdjustedCompliance.
  rewrite !readOr_finite by assumption. reflexivity.
Qed.

Lemma businessAdjustedComplianceJs_finite business :
  businessAdjustedComplianceJs Number params business
  = Finite (businessAdjustedCompliance params business).
Proof.
  unfold businessAdjustedComplianceJs, businessAdjustedCompliance.
  rewrite !readOr_finite by assumption. reflexivity.
Qed.

Lemma accumulateJs_finite acc name value size :
  accumulateJs (finiteWeighted acc) name (Finite value) size
  = finiteWeighted (accumulate acc name value size).
Proof.
  unfold accumulateJs, finiteWeighted, accumulate. simpl.
  rewrite fmap_insert. reflexivity.
Qed.

Lemma citizen_loop_finite groups : forall acc,
  fold_left (complianceOfGroupJs Number params) groups (finiteWeighted acc)
  = finiteWeighted (fold_left (complianceOfGroup params) groups acc).
Proof.
  induction groups as [|g groups IH]; intros acc; [reflexivity|].
  simpl. rewrite <- IH. f_equal.
  unfold complianceOfGroupJs, complianceOfGroup.
  rewrite citizenAdjustedComplianceJs_finite. apply accumulateJs_finite.
Qed.

Lemma business_loop_finite businesses : forall acc,
  fold_left (complianceOfBusinessJs Number params) businesses (finiteWeighted acc)
  = finiteWeighted (fold_left (complianceOfBusiness params) businesses acc).
Proof.
  induction businesses as [|b businesses IH]; intros acc; [reflexivity|].
  simpl. rewrite <- IH. f_equal.
  unfold complianceOfBusinessJs, complianceOfBusiness.
  rewrite businessAdjustedComplianceJs_finite. apply accumulateJs_finite.
Qed.

Lemma averageOrJs_finite acc fallback :
  averageOrJs (finiteWeighted acc) fallback = Finite (averageOr acc fallback).
Proof.
  unfold averageOrJs, averageOr, finiteWeighted. simpl.
  destruct (Qltb 0 (weight acc)); reflexivity.
Qed.

(** On parameters that hold no text under the three keys the stage
    reads, the stage over the numbers returns the finite values of the
    rational stage. *)
Lemma complianceJs_finite i :
  complianceJs Number params i = finiteCompliance (complianceWith params i).
Proof.
  unfold complianceJs, complianceWith. cbv zeta.
  change {| weightedSumJs := Finite 0; weightJs := 0; byNameJs := ∅ |}
    with {| weightedSumJs := Finite 0; weightJs := 0;
            byNameJs := (∅ : gmap string JsNumber) |}.
  assert (Hstart : forall m : gmap string Q,
            {| weightedSumJs := Finite 0; weightJs := 0; byNameJs := Finite <$> m |}
            = finiteWeighted {| weightedSum := 0; weight := 0; byName := m |})
    by reflexivity.
  rewrite <- (fmap_empty Finite), Hstart, citizen_loop_finite.
  change (byNameJs (finiteWeighted ?acc)) with (Finite <$> byName acc).
  rewrite Hstart, business_loop_finite, !averageOrJs_finite.
  reflexivity.
Qed.

End FiniteCompliance.

Section MetricsBounds.
Context `{JsCoercion}.


End MetricsBounds.



(** ** More on the parameter aggregator *)

Section AggregationShape.
Context `{JsCoercion}.

Lemma foldContribution_lookup aggregated c key :
  foldContribution aggregated c !! key =
    match overrideAt key c with
    | Some v => Some v
    | None => map_fold foldParameter aggregated (parameters (policy c)) !! key
    end.
Proof.
  unfold overrideAt, foldContribution.
  destruct (overrides c) as [o|]; [|reflexivity].
  rewrite fold_overrides_lookup. destruct (o !! key); reflexivity.
Qed.

(** X1. No policies aggregate to the empty parameter map, and a single
    contribution whose keys are none of the names a plain object
    inherits aggregates to its own parameters with its overrides written
    over them. *)
Theorem aggregate_nil_and_single :
  aggregateParameters [] = ∅
  /\ forall c : PolicyContribution,
       ownContribution c = true ->
       aggregateParameters [c]
       = match overrides c with
         | Some o => o ∪ parameters (policy c)
         | None => parameters (policy c)
         end.
Proof.
  split; [reflexivity|]. intros c _. apply map_eq. intros key.
  unfold aggregateParameters. simpl.
  rewrite foldContribution_lookup, fold_parameters_lookup, lookup_empty.
  unfold overrideAt. destruct (overrides c) as [o|].
  - rewrite lookup_union.
    destruct (o !! key), (parameters (policy c) !! key) as [[]|]; reflexivity.
  - destruct (parameters (policy c) !! key) as [[]|]; reflexivity.
Qed.

Lemma foldContribution_is_Some aggregated c key :
  is_Some (foldContribution aggregated c !! key)
  <-> is_Some (aggregated !! key)
      \/ is_Some (parameters (policy c) !! key)
      \/ is_Some (overrideAt key c).
Proof.
  rewrite foldContribution_lookup, fold_parameters_lookup.
  destruct (overrideAt key c), (parameters (policy c) !! key),
    (aggregated !! key);
    split; intros Hs;
    repeat match goal with
           | Hor : _ \/ _ |- _ => destruct Hor
           | Hn : is_Some None |- _ => destruct (is_Some_None Hn)
           end;
    eauto 6.
Qed.

Lemma fold_is_Some key policies : forall aggregated,
  is_Some (fold_left foldContribution policies aggregated !! key)
  <-> is_Some (aggregated !! key)
      \/ Exists (fun c => is_Some (parameters (policy c) !! key)
                          \/ is_Some (overrideAt key c)) policies.
Proof.
  induction policies as [|c policies IH]; intros aggregated; simpl.
  - rewrite Exists_nil. tauto.
  - rewrite IH, foldContribution_is_Some, Exists_cons. tauto.
Qed.

(** X2. Among the keys that are none of the names a plain object
    inherits, the aggregate holds exactly those that some contribution
    mentions, in its parameters or in its overrides: no such key is
    dropped and none is invented. *)
Theorem aggregate_keys :
  forall (policies : list PolicyContribution) (key : string),
    ownName key = true ->
    (is_Some (aggregateParameters policies !! key)
     <-> Exists (fun c => is_Some (parameters (policy c) !! key)
                          \/ is_Some (overrideAt key c)) policies).
Proof.
  intros policies key _. unfold aggregateParameters.
  rewrite fold_is_Some, lookup_empty.
  split; [intros [[v Hv]|Hex]; [discriminate | exact Hex] | intros Hex; right; exact Hex].
Qed.

(** X3. How the ordinary value of the last contribution enters, for a
    key that is none of the names a plain object inherits: a number is
    averaged with the number aggregated so far from contributions that
    hold no text under the key, so the last contribution weighs one half
    whatever the number of contributions before it; a first occurrence
    and a value that is not a number replace what was there. *)
Theorem last_contribution_value :
  forall (pre : list PolicyContribution) (c : PolicyContribution) (key : string),
    ownName key = true ->
    overrideAt key c = None ->
    (forall a w : Q,
        forallb (textFreeAt key) pre = true ->
        aggregateParameters pre !! key = Some (VNum a) ->
        parameters (policy c) !! key = Some (VNum w) ->
        aggregateParameters (pre ++ [c]) !! key = Some (VNum ((a + w) / 2)))
    /\ (forall v : JsValue,
        aggregateParameters pre !! key = None ->
        parameters (policy c) !! key = Some v ->
        aggregateParameters (pre ++ [c]) !! key = Some v)
    /\ (forall v : JsValue,
        (forall w, v <> VNum w) ->
        parameters (policy c) !! key = Some v ->
        aggregateParameters (pre ++ [c]) !! key = Some v)
    /\ (parameters (policy c) !! key = None ->
        aggregateParameters (pre ++ [c]) !! key = aggregateParameters pre !! key).
Proof.
  intros pre c key _ Hov. unfold aggregateParameters.
  rewrite fold_left_app. simpl.
  rewrite foldContribution_lookup, Hov, fold_parameters_lookup.
  split; [|split; [|split]].
  - intros a w _ Ha Hw. rewrite Hw, Ha. reflexivity.
  - intros v Hnone Hv. rewrite Hv, Hnone. destruct v; reflexivity.
  - intros v Hnot Hv. rewrite Hv.
    destruct v as [w| |]; [destruct (Hnot w eq_refl) | |];
      destruct (fold_left foldContribution pre ∅ !! key); reflexivity.
  - intros Hnone. rewrite Hnone. reflexivity.
Qed.

End AggregationShape.

Lemma last_contribution_value_witness :
  aggregateParameters
    ([contribution (fineOnly 100) None; contribution (fineOnly 200) None]
       ++ [contribution (fineOnly 300) None]) !! "fineAmount"
  = Some (VNum ((((100 + 200) / 2) + 300) / 2))
  /\ aggregateParameters
       ([contribution (fineOnly 100) None]
          ++ [contribution {[ "fineAmount" := VStr "waived" ]} None]) !! "fineAmount"
     = Some (VStr "waived").
Proof.
  assert (Hown : ownName "fineAmount" = true) by reflexivity.
  split.
  - assert (Hov : overrideAt "fineAmount" (contribution (fineOnly 300) None) = None)
      by reflexivity.
    assert (Hpre : forallb (textFreeAt "fineAmount")
                     [contribution (fineOnly 100) None;
                      contribution (fineOnly 200) None] = true)
      by reflexivity.
    exact (proj1 (last_contribution_value
                    [contribution (fineOnly 100) None; contribution (fineOnly 200) None]
                    _ _ Hown Hov) ((100 + 200) / 2) 300 Hpre eq_refl eq_refl).
  - assert (Hov : overrideAt "fineAmount"
                    (contribution {[ "fineAmount" := VStr "waived" ]} None) = None)
      by reflexivity.
    refine (proj1 (proj2 (proj2 (last_contribution_value
                    [contribution (fineOnly 100) None] _ _ Hown Hov))) _ _ eq_refl).
    intros w Hw. discriminate Hw.
Defined.

Lemma aggregate_nil_and_single_witness :
  aggregateParameters [contribution (fineOnly 100) (Some (fineOnly 500))]
  = fineOnly 500 ∪ fineOnly 100.
Proof.
  assert (Hown : ownContribution (contribution (fineOnly 100) (Some (fineOnly 500)))
                 = true) by reflexivity.
  exact (proj2 aggregate_nil_and_single
           (contribution (fineOnly 100) (Some (fineOnly 500))) Hown).
Defined.

Lemma aggregate_keys_witness :
  is_Some (aggregateParameters [contribution (fineOnly 100) None] !! "fineAmount").
Proof.
  assert (Hown : ownName "fineAmount" = true) by reflexivity.
  apply (proj2 (aggregate_keys [contribution (fineOnly 100) None] "fineAmount" Hown)).
  apply Exists_cons_hd. left. exists (VNum 100). reflexivity.
Defined.

(** ** Detection rate and size multipliers *)

Section HelperFacts.
Context `{JsCoercion}.

(** X4. The detection rate never exceeds 0.7, so its cap of 0.9 never
    binds and the rate is the runner's uncapped 0.3 + min(0.4, f / 25);
    for an inspection frequency that reads as non-negative the rate is at
    least 0.3, and from a frequency of 10 on it is 0.7. *)
Theorem detection_rate_range :
  forall params : gmap string JsValue,
    getDetectionRate params <= 0.7
    /\ getDetectionRate params == runnerDetectionRate params
    /\ (0 <= orDefault (params !! "inspectionFrequency") 0 ->
        0.3 <= getDetectionRate params)
    /\ (10 <= orDefault (params !! "inspectionFrequency") 0 ->
        getDetectionRate params == 0.7).
Proof.
  intros params. unfold getDetectionRate, runnerDetectionRate. cbv zeta.
  set (f := orDefault (params !! "inspectionFrequency") 0).
  assert (Hboost : Qmin 0.4 (f / 25) <= 0.4) by apply Q.le_min_l.
  assert (Hcap : Qmin 0.9 (0.3 + Qmin 0.4 (f / 25)) == 0.3 + Qmin 0.4 (f / 25))
    by (apply Q.min_r; lra).
  split; [rewrite Hcap; lra|]. split; [exact Hcap|]. split.
  - intros Hf. rewrite Hcap.
    assert (0 <= Qmin 0.4 (f / 25)).
    { apply Q.min_glb; [lra|]. apply Qle_shift_div_l; lra. }
    lra.
  - intros Hf. rewrite Hcap.
    assert (Hmin : Qmin 0.4 (f / 25) == 0.4).
    { apply Q.min_l. apply Qle_shift_div_l; lra. }
    rewrite Hmin. reflexivity.
Qed.

End HelperFacts.

Lemma detection_rate_range_witness :
  0.3 <= getDetectionRate scenarioParameters
  /\ getDetectionRate {[ "inspectionFrequency" := VNum 12 ]} == 0.7.
Proof.
  split.
  - apply (proj1 (proj2 (proj2 (detection_rate_range scenarioParameters)))).
    vm_compute. discriminate.
  - apply (proj2 (proj2 (proj2 (detection_rate_range
                                  {[ "inspectionFrequency" := VNum 12 ]})))).
    vm_compute. discriminate.
Defined.

(** X5. The engine's table lookup of the size multiplier and the
    runner's conditional agree on every size category that is none of
    the names the table inherits, absent, empty and unknown ones
    included: 5 for large, 2 for medium and 1 otherwise. *)
Theorem business_multiplier_agrees :
  forall business : BusinessCategory.t,
    ownName (sizeOrSmall business) = true ->
    getBusinessMultiplier business
    = runnerMultiplier (BusinessCategory.sizeCategory business)
    /\ (getBusinessMultiplier business = 1
        \/ getBusinessMultiplier business = 2
        \/ getBusinessMultiplier business = 5).
Proof.
  intros business _.
  assert (Hagree : getBusinessMultiplier business
                   = runnerMultiplier (BusinessCategory.sizeCategory business)).
  { unfold getBusinessMultiplier, sizeOrSmall, runnerMultiplier.
    destruct (BusinessCategory.sizeCategory business) as [s|]; [|reflexivity].
    destruct (String.eqb s "") eqn:Hempty.
    { apply String.eqb_eq in Hempty. subst s. reflexivity. }
    destruct (String.eqb s "large") eqn:Hlarge.
    { apply String.eqb_eq in Hlarge. subst s. reflexivity. }
    destruct (String.eqb s "medium") eqn:Hmedium.
    { apply String.eqb_eq in Hmedium. subst s. reflexivity. }
    apply String.eqb_neq in Hlarge, Hmedium.
    destruct (decide (s = "small")) as [->|Hsmall]; [reflexivity|].
    unfold sizeMultipliers.
    rewrite !lookup_insert_ne, lookup_singleton_ne by congruence. reflexivity. }
  split; [exact Hagree|]. rewrite Hagree. unfold runnerMultiplier.
  destruct (BusinessCategory.sizeCategory business) as [s|]; [|left; reflexivity].
  destruct (String.eqb s "large"); [right; right; reflexivity|].
  destruct (String.eqb s "medium"); [right; left; reflexivity | left; reflexivity].
Qed.

Lemma business_multiplier_agrees_witness :
  getBusinessMultiplier
    {| BusinessCategory.name := "retail"; BusinessCategory.count := 40;
       BusinessCategory.complianceRate := 0.9;
       BusinessCategory.sizeCategory := Some "large";
       BusinessCategory.behaviorRules := None |}
  = runnerMultiplier (Some "large").
Proof.
  assert (Hown : ownName (sizeOrSmall
                   {| BusinessCategory.name := "retail"; BusinessCategory.count := 40;
                      BusinessCategory.complianceRate := 0.9;
                      BusinessCategory.sizeCategory := Some "large";
                      BusinessCategory.behaviorRules := None |}) = true)
    by reflexivity.
  exact (proj1 (business_multiplier_agrees _ Hown)).
Defined.

(** ** More on revenue *)

Section RevenueFacts.
Context `{JsCoercion}.

(** X6. The four breakdown entries are fixed splits of the fine and
    permit revenue: the two fine entries add up to the fine revenue and
    the two permit entries to the permit revenue. *)
Theorem revenue_breakdown_splits :
  forall (random : RandomSource) (i : SimulationInput),
    let r := revenue (simulate random i) in
    exists citizenFines businessFines citizenPermits businessPermits : Q,
      Revenue.breakdown r !! "citizenFines" = Some citizenFines
      /\ Revenue.breakdown r !! "businessFines" = Some businessFines
      /\ Revenue.breakdown r !! "citizenPermits" = Some citizenPermits
      /\ Revenue.breakdown r !! "businessPermits" = Some businessPermits
      /\ citizenFines + businessFines == Revenue.fromFines r
      /\ citizenPermits + businessPermits == Revenue.fromPermits r
      /\ citizenFines == 0.3 * Revenue.fromFines r
      /\ citizenPermits == 0.4 * Revenue.fromPermits r.
Proof.
  intros random i. cbv zeta. rewrite simulate_revenue. unfold revenueWith. simpl.
  do 4 eexists.
  split; [reflexivity|]. split; [reflexivity|].
  split; [reflexivity|]. split; [reflexivity|].
  repeat split; ring.
Qed.

Lemma revenueOfGroup_noRevenue params cfg groups :
  params !! "fineAmount" = None ->
  params !! "feeAmount" = None ->
  params !! "taxRate" = None ->
  forall acc, noRevenue acc ->
    noRevenue (fold_left (revenueOfGroup params cfg) groups acc).
Proof.
  intros Hfine Hfee Htax.
  induction groups as [|g groups IH]; intros acc Hacc; [exact Hacc|].
  simpl. apply IH. destruct Hacc as (Hf & Hp & Ht).
  unfold noRevenue, revenueOfGroup. simpl. rewrite Hfine, Hfee, Htax. simpl.
  rewrite Hf, Hp, Ht. repeat split; field.
Qed.

Lemma revenueOfBusiness_noRevenue params cfg businesses :
  params !! "fineAmount" = None ->
  params !! "feeAmount" = None ->
  params !! "taxRate" = None ->
  forall acc, noRevenue acc ->
    noRevenue (fold_left (revenueOfBusiness params cfg) businesses acc).
Proof.
  intros Hfine Hfee Htax.
  induction businesses as [|b businesses IH]; intros acc Hacc; [exact Hacc|].
  simpl. apply IH. destruct Hacc as (Hf & Hp & Ht).
  unfold noRevenue, revenueOfBusiness. simpl. rewrite Hfine, Hfee, Htax. simpl.
  rewrite Hf, Hp, Ht. repeat split; field.
Qed.


End RevenueFacts.


(** ** Empty segments *)

Lemma fold_weight_zero {A : Type} (name : A -> string) (value size : A -> Q)
    (l : list A) :
  Forall (fun x => size x == 0) l ->
  forall acc, weight acc == 0 ->
    weight (fold_left (fun acc x => accumulate acc (name x) (value x) (size x)) l acc)
    == 0.
Proof.
  induction 1 as [|x l Hx _ IH]; intros acc Hacc; [exact Hacc|].
  simpl. apply IH. simpl. rewrite Hacc, Hx. reflexivity.
Qed.

Lemma averageOr_weight_zero acc fallback :
  weight acc == 0 -> averageOr acc fallback = fallback.
Proof.
  intros Hw. unfold averageOr.
  assert (Hoff : Qltb 0 (weight acc) = false) by (apply Qltb_false; lra).
  rewrite Hoff. reflexivity.
Qed.

Section EmptySegments.
Context `{JsCoercion}.

(** X8. A segment without members, be it an empty list or one whose
    populations or counts are all 0, contributes a compliance of 0 and a
    satisfaction of 70; the overall values are the plain means of the two
    segments, so without businesses the overall compliance is half the
    citizen compliance. With no records at all the per-name maps are
    empty. *)
Theorem segments_without_members :
  forall (random : RandomSource) (i : SimulationInput),
    let c := compliance (simulate random i) in
    let s := satisfaction (simulate random i) in
    (Forall (fun b => BusinessCategory.count b = 0%Z) (businessCategories i) ->
     Compliance.business c = 0
     /\ Compliance.overall c == Compliance.citizen c / 2
     /\ Satisfaction.business s = 70
     /\ Satisfaction.overall s == (Satisfaction.citizen s + 70) / 2)
    /\ (Forall (fun g => CitizenGroup.population g = 0%Z) (citizenGroups i) ->
        Compliance.citizen c = 0
        /\ Compliance.overall c == Compliance.business c / 2
        /\ Satisfaction.citizen s = 70
        /\ Satisfaction.overall s == (70 + Satisfaction.business s) / 2)
    /\ (citizenGroups i = [] -> businessCategories i = [] ->
        Compliance.byCategory c = ∅ /\ Satisfaction.byDemographic s = ∅).
Proof.
  intros random i. cbv zeta.
  rewrite simulate_compliance, simulate_satisfaction.
  set (params := aggregateParameters (policies i)).
  split; [|split].
  - intros Hzero.
    assert (Hsizes : Forall (fun b => inject_Z (BusinessCategory.count b) == 0)
                       (businessCategories i)).
    { eapply Forall_impl; [exact Hzero|]. intros b Hb. simpl in Hb.
      rewrite Hb. reflexivity. }
    unfold complianceWith, satisfactionWith. simpl.
    rewrite (averageOr_weight_zero
               (fold_left (complianceOfBusiness params) (businessCategories i) _))
      by (apply (fold_weight_zero BusinessCategory.name
                   (businessAdjustedCompliance params)
                   (fun b => inject_Z (BusinessCategory.count b)));
          [exact Hsizes | reflexivity]).
    rewrite (averageOr_weight_zero
               (fold_left (satisfactionOfBusiness params) (businessCategories i) _))
      by (apply (fold_weight_zero BusinessCategory.name
                   (businessSatisfaction params)
                   (fun b => inject_Z (BusinessCategory.count b)));
          [exact Hsizes | reflexivity]).
    unfold baseSatisfaction.
    split; [reflexivity|]. split; [field|]. split; [reflexivity | field].
  - intros Hzero.
    assert (Hsizes : Forall (fun g => inject_Z (CitizenGroup.population g) == 0)
                       (citizenGroups i)).
    { eapply Forall_impl; [exact Hzero|]. intros g Hg. simpl in Hg.
      rewrite Hg. reflexivity. }
    unfold complianceWith, satisfactionWith. simpl.
    rewrite (averageOr_weight_zero
               (fold_left (complianceOfGroup params) (citizenGroups i) _))
      by (apply (fold_weight_zero CitizenGroup.name
                   (citizenAdjustedCompliance params)
                   (fun g => inject_Z (CitizenGroup.population g)));
          [exact Hsizes | reflexivity]).
    rewrite (averageOr_weight_zero
               (fold_left (satisfactionOfGroup params) (citizenGroups i) _))
      by (apply (fold_weight_zero CitizenGroup.name
                   (groupSatisfaction params)
                   (fun g => inject_Z (CitizenGroup.population g)));
          [exact Hsizes | reflexivity]).
    unfold baseSatisfaction.
    split; [reflexivity|]. split; [field|]. split; [reflexivity | field].
  - intros Hgroups Hbusinesses. unfold complianceWith, satisfactionWith.
    rewrite Hgroups, Hbusinesses. split; reflexivity.
Qed.

End EmptySegments.

Lemma segments_without_members_witness :
  Compliance.business (compliance (simulate (fun _ => 0) (scenarioInput 0))) = 0
  /\ Satisfaction.business (satisfaction (simulate (fun _ => 0) (scenarioInput 0))) = 70.
Proof.
  destruct (proj1 (segments_without_members (fun _ => 0) (scenarioInput 0))
              (List.Forall_nil _)) as (Hc & _ & Hs & _).
  split; [exact Hc | exact Hs].
Defined.

(** ** The projection series *)

Lemma loopMonths_integer (n : Z) (months : Q) :
  months == inject_Z n ->
  loopMonths months = map Z.of_nat (seq 1 (Z.to_nat n)).
Proof.
  intros Hn. unfold loopMonths. rewrite Hn, Qfloor_Z. reflexivity.
Qed.

Lemma loopMonths_positive months month :
  In month (loopMonths months) -> (1 <= month)%Z.
Proof.
  unfold loopMonths. rewrite in_map_iff. intros [k [<- Hk]].
  apply in_seq in Hk. lia.
Qed.

Lemma projected_months i r random months :
  forall st : ProjectionLoop,
    map MonthlyProjection.month (pushed (fold_left (projectMonth i r random) months st))
    = map MonthlyProjection.month (pushed st) ++ months.
Proof.
  induction months as [|month months IH]; intros st; simpl.
  - rewrite app_nil_r. reflexivity.
  - rewrite IH. unfold projectMonth. simpl. rewrite map_app, <- app_assoc.
    reflexivity.
Qed.

Lemma pushed_extends i r random months :
  forall st : ProjectionLoop,
    exists added : list MonthlyProjection.t,
      pushed (fold_left (projectMonth i r random) months st) = pushed st ++ added
      /\ length added = length months.
Proof.
  induction months as [|month months IH]; intros st; simpl.
  - exists []. rewrite app_nil_r. split; reflexivity.
  - destruct (IH (projectMonth i r random st month)) as [added [Heq Hlen]].
    rewrite Heq. unfold projectMonth at 1. simpl.
    eexists. rewrite <- app_assoc. split; [reflexivity|].
    simpl. rewrite Hlen. reflexivity.
Qed.

Lemma generate_extends random e :
  exists added : list MonthlyProjection.t,
    monthlyProjections (results (generateMonthlyProjections random e))
    = monthlyProjections (results e) ++ added
    /\ length added = Z.to_nat (Qfloor (timeHorizon (config (input e)))).
Proof.
  unfold generateMonthlyProjections. simpl.
  destruct (pushed_extends (input e) (results e) random
              (loopMonths (timeHorizon (config (input e))))
              {| pushed := monthlyProjections (results e); calls := 0 |})
    as [added [Heq Hlen]].
  exists added. split; [exact Heq|].
  rewrite Hlen. unfold loopMonths. rewrite length_map, length_seq. reflexivity.
Qed.

Section ProjectionSeries.
Context `{JsCoercion}.

(** X9. A run appends one projection per month 1, 2, ... up to the time
    horizon, after the projections the engine already holds: a fresh run
    has floor(timeHorizon) projections, none for a horizon below 1, and
    exactly n, for the months 1 to n, when the horizon is the integer
    n >= 0. *)
Theorem projection_months :
  forall (random : RandomSource),
    (forall e : SimulationEngine,
        map MonthlyProjection.month (monthlyProjections (results (run random e)))
        = map MonthlyProjection.month (monthlyProjections (results e))
            ++ loopMonths (timeHorizon (config (input e))))
    /\ forall i : SimulationInput,
         map MonthlyProjection.month (monthlyProjections (simulate random i))
         = loopMonths (timeHorizon (config i))
         /\ length (monthlyProjections (simulate random i))
            = Z.to_nat (Qfloor (timeHorizon (config i)))
         /\ (timeHorizon (config i) < 1 ->
             monthlyProjections (simulate random i) = [])
         /\ forall n : Z,
              timeHorizon (config i) == inject_Z n ->
              length (monthlyProjections (simulate random i)) = Z.to_nat n
              /\ map MonthlyProjection.month (monthlyProjections (simulate random i))
                 = map Z.of_nat (seq 1 (Z.to_nat n)).
Proof.
  intros random.
  assert (Hrun : forall e : SimulationEngine,
             map MonthlyProjection.month (monthlyProjections (results (run random e)))
             = map MonthlyProjection.month (monthlyProjections (results e))
                 ++ loopMonths (timeHorizon (config (input e)))).
  { intros e. unfold run, generateMonthlyProjections. simpl.
    apply projected_months. }
  split; [exact Hrun|]. intros i.
  assert (Hmonths : map MonthlyProjection.month (monthlyProjections (simulate random i))
                    = loopMonths (timeHorizon (config i))).
  { unfold simulate. rewrite Hrun. reflexivity. }
  assert (Hlen : length (monthlyProjections (simulate random i))
                 = Z.to_nat (Qfloor (timeHorizon (config i)))).
  { rewrite <- (length_map MonthlyProjection.month), Hmonths.
    unfold loopMonths. rewrite length_map, length_seq. reflexivity. }
  split; [exact Hmonths|]. split; [exact Hlen|]. split.
  - intros Hlt. apply length_zero_iff_nil. rewrite Hlen.
    assert (Qfloor (timeHorizon (config i)) < 1)%Z; [|lia].
    rewrite Zlt_Qlt. eapply Qle_lt_trans; [apply Qfloor_le | exact Hlt].
  - intros n Hn. split.
    + rewrite Hlen, Hn, Qfloor_Z. reflexivity.
    + rewrite Hmonths. apply loopMonths_integer, Hn.
Qed.

(** X10. The runner never resets the result object: a second run on the
    same engine leaves the four KPI groups as the first run made them and
    appends the months 1, 2, ... a second time. *)
Theorem second_run_appends :
  forall (random1 random2 : RandomSource) (e : SimulationEngine),
    let first := run random1 e in
    let second := run random2 first in
    revenue (results second) = revenue (results first)
    /\ compliance (results second) = compliance (results first)
    /\ workload (results second) = workload (results first)
    /\ satisfaction (results second) = satisfaction (results first)
    /\ firstn (length (monthlyProjections (results first)))
         (monthlyProjections (results second))
       = monthlyProjections (results first)
    /\ length (monthlyProjections (results second))
       = (length (monthlyProjections (results first))
          + Z.to_nat (Qfloor (timeHorizon (config (input e)))))%nat.
Proof.
  intros random1 random2 e. cbv zeta.
  split; [reflexivity|]. split; [reflexivity|].
  split; [reflexivity|]. split; [reflexivity|].
  destruct (generate_extends random2
              (calculateSatisfaction
                 (calculateWorkload
                    (calculateCompliance (calculateRevenue (run random1 e))))))
    as [added [Heq Hlen]].
  change (monthlyProjections (results (run random2 (run random1 e)))
          = monthlyProjections (results (run random1 e)) ++ added) in Heq.
  rewrite Heq. split.
  - rewrite firstn_app, Nat.sub_diag, firstn_all. simpl. apply app_nil_r.
  - rewrite length_app, Hlen. reflexivity.
Qed.

End ProjectionSeries.

Lemma projection_months_witness :
  length (monthlyProjections (simulate (fun _ => 0) (scenarioInput 0))) = 12%nat
  /\ monthlyProjections
       (simulate (fun _ => 0)
          {| policies := []; citizenGroups := []; businessCategories := [];
             config := {| timeHorizon := 1 # 2; includeSeasonality := true;
                          populationGrowth := 0; economicGrowth := 0 |} |}) = [].
Proof.
  split.
  - exact (proj1 (proj2 (proj2 (proj2 (proj2 (projection_months (fun _ => 0))
                                         (scenarioInput 0)))) 12%Z eq_refl)).
  - exact (proj1 (proj2 (proj2 (proj2 (projection_months (fun _ => 0))
             {| policies := []; citizenGroups := []; businessCategories := [];
                config := {| timeHorizon := 1 # 2; includeSeasonality := true;
                             populationGrowth := 0; economicGrowth := 0 |} |})))
             eq_refl).
Defined.

Lemma projectMonth_pushes i r random st month :
  projectMonth i r random st month
  = {| pushed := pushed st ++ [projectionOf i r random (calls st) month];
       calls := S (S (calls st)) |}.
Proof. reflexivity. Qed.

Lemma pushed_Forall (P : MonthlyProjection.t -> Prop) i r random months :
  (forall calls month, In month months -> P (projectionOf i r random calls month)) ->
  forall st : ProjectionLoop,
    Forall P (pushed st) ->
    Forall P (pushed (fold_left (projectMonth i r random) months st)).
Proof.
  induction months as [|month months IH]; intros Hnew st Hst; [exact Hst|].
  simpl. apply IH.
  - intros calls m Hm. apply Hnew. right. exact Hm.
  - rewrite projectMonth_pushes. simpl. apply Forall_app. split; [exact Hst|].
    constructor; [|constructor]. apply Hnew. left. reflexivity.
Qed.

Lemma projected_revenues i r random months :
  forall st : ProjectionLoop,
    map MonthlyProjection.revenue
      (pushed (fold_left (projectMonth i r random) months st))
    = map MonthlyProjection.revenue (pushed st)
        ++ map (fun month => MonthlyProjection.revenue (projectionOf i r random 0 month))
             months.
Proof.
  induction months as [|month months IH]; intros st; simpl.
  - rewrite app_nil_r. reflexivity.
  - rewrite IH, projectMonth_pushes. simpl. rewrite map_app, <- app_assoc.
    reflexivity.
Qed.

Lemma seasonFactor_None cfg month :
  (1 <= month)%Z ->
  seasonFactor cfg month = None
  <-> includeSeasonality cfg = true /\ (12 < month)%Z.
Proof.
  intros Hmonth. unfold seasonFactor.
  destruct (includeSeasonality cfg).
  - rewrite lookup_ge_None. simpl. split.
    + intros Hge. split; [reflexivity | lia].
    + intros [_ Hgt]. lia.
  - split; [discriminate | intros [Hflag _]; discriminate].
Qed.

Lemma sumFinite_Some (f : Z -> Q) (l : list Z) :
  sumFinite (map (fun month => Some (f month)) l) = Some (sumQ (map f l)).
Proof.
  induction l as [|month l IH]; [reflexivity|].
  unfold sumFinite, sumQ in *. cbn [map foldr]. rewrite IH. reflexivity.
Qed.

Lemma sumQ_ext (f g : Z -> Q) (l : list Z) :
  (forall month, In month l -> f month == g month) ->
  sumQ (map f l) == sumQ (map g l).
Proof.
  induction l as [|month l IH]; intros Hfg; [reflexivity|].
  simpl. rewrite (Hfg month) by (left; reflexivity).
  rewrite IH by (intros m Hm; apply Hfg; right; exact Hm). reflexivity.
Qed.

Lemma sumQ_scale (c : Q) (t : Z -> Q) (l : list Z) :
  sumQ (map (fun month => c * t month) l) == c * sumQ (map t l).
Proof.
  induction l as [|month l IH]; simpl; [ring|]. rewrite IH. ring.
Qed.

Lemma sumQ_ones (l : list Z) :
  sumQ (map (fun _ => 1) l) == inject_Z (Z.of_nat (length l)).
Proof.
  induction l as [|month l IH]; [reflexivity|].
  simpl length. rewrite Nat2Z.inj_succ, <- Z.add_1_l, inject_Z_plus.
  simpl. rewrite IH. reflexivity.
Qed.

Lemma seasonal_table_sums_to_12 :
  sumQ (map tableAt (map Z.of_nat (seq 1 12))) == 12.
Proof. reflexivity. Qed.

Lemma revenue_sum i r random (t : Z -> Q) :
  economicGrowth (config i) == 0 ->
  (forall month, In month (loopMonths (timeHorizon (config i))) ->
                 seasonFactor (config i) month = Some (t month)) ->
  exists s : Q,
    sumFinite
      (map MonthlyProjection.revenue
         (pushed (fold_left (projectMonth i r random)
                    (loopMonths (timeHorizon (config i)))
                    {| pushed := []; calls := 0 |})))
    = Some s
    /\ s == Revenue.total (revenue r) / timeHorizon (config i)
            * sumQ (map t (loopMonths (timeHorizon (config i)))).
Proof.
  intros Hgrowth Hseason. rewrite projected_revenues. simpl.
  rewrite (map_ext_in _
             (fun month =>
                Some (Revenue.total (revenue r) / timeHorizon (config i) * t month
                      * (1 + economicGrowth (config i) / 100 * (inject_Z month / 12))))).
  - rewrite sumFinite_Some. eexists. split; [reflexivity|].
    rewrite <- sumQ_scale. apply sumQ_ext. intros month _.
    rewrite Hgrowth. unfold Qdiv. ring.
  - intros month Hmonth. simpl. rewrite (Hseason month Hmonth). reflexivity.
Qed.

Lemma jitter_bound (v r : Q) :
  0 <= v -> 0 <= r -> r < 1 ->
  within (0.99 * v) (1.01 * v) (v * (1 + (r * 0.02 - 0.01))).
Proof. intros Hv Hr0 Hr1. unfold within. split; nra. Qed.

Section ProjectionValues.
Context `{JsCoercion}.




End ProjectionValues.




(** ** Staffing *)

Section Staffing.
Context `{JsCoercion}.

Lemma permitRenewalsPerYear_day (params : gmap string JsValue) :
  1 <= orDefault (params !! "permitDuration") 365 ->
  permitRenewalsPerYear params
  = Some (12 / (orDefault (params !! "permitDuration") 365 / 30)).
Proof.
  intros Hday. unfold permitRenewalsPerYear, divide.
  destruct (Qeq_bool (orDefault (params !! "permitDuration") 365 / 30) 0) eqn:Hz;
    [|reflexivity].
  apply Qeq_bool_iff in Hz.
  assert (Hd : orDefault (params !! "permitDuration") 365
               == orDefault (params !! "permitDuration") 365 / 30 * 30) by field.
  rewrite Hz in Hd. lra.
Qed.


End Staffing.


(** ** More on scenario comparison *)

Lemma percentOf_zero_delta delta base : delta == 0 -> percentOf delta base == 0.
Proof.
  intros Hd. unfold percentOf. destruct (Qltb 0 base); [|reflexivity].
  rewrite Hd. unfold Qdiv. ring.
Qed.



(** ** Comparison by metric name *)

Lemma findMetric_None metricName scenarioMetrics :
  findMetric metricName scenarioMetrics = None
  <-> metricName ∉ (Metric.name <$> scenarioMetrics).
Proof.
  unfold findMetric. induction scenarioMetrics as [|m l IH]; simpl.
  - split; [intros _; apply not_elem_of_nil | reflexivity].
  - rewrite not_elem_of_cons.
    destruct (String.eqb (Metric.name m) metricName) eqn:Heq.
    + apply String.eqb_eq in Heq. split; [discriminate|].
      intros [Hne _]. congruence.
    + apply String.eqb_neq in Heq. rewrite IH. split.
      * intros Hl. split; [congruence | exact Hl].
      * intros [_ Hl]. exact Hl.
Qed.

Lemma findMetric_Some metricName scenarioMetrics sm :
  findMetric metricName scenarioMetrics = Some sm ->
  Metric.name sm = metricName /\ sm ∈ scenarioMetrics.
Proof.
  unfold findMetric. intros Hfind. apply find_some in Hfind.
  destruct Hfind as [Hin Heq]. apply String.eqb_eq in Heq.
  split; [exact Heq | apply list_elem_of_In; exact Hin].
Qed.

(** X16. The rows of a comparison by name are, in baseline order, the
    baseline metrics whose name occurs among the scenario's metrics; a
    baseline metric without counterpart is dropped, and a scenario metric
    unknown to the baseline never appears. *)
Theorem metric_rows_are_matched_names :
  forall baselineMetrics scenarioMetrics : list Metric.t,
    DeltaRow.name <$> metricDeltas baselineMetrics scenarioMetrics
    = filter (fun n => n ∈ (Metric.name <$> scenarioMetrics))
             (Metric.name <$> baselineMetrics)
    /\ (length (metricDeltas baselineMetrics scenarioMetrics)
        <= length baselineMetrics)%nat.
Proof.
  intros baselineMetrics scenarioMetrics. split.
  - induction baselineMetrics as [|bm l IH]; [reflexivity|].
    unfold metricDeltas in *. rewrite fmap_cons. cbn [omap list_omap].
    unfold deltaRow at 1.
    destruct (findMetric (Metric.name bm) scenarioMetrics) as [sm|] eqn:Hfind.
    + rewrite filter_cons_True.
      * rewrite fmap_cons. simpl. f_equal. exact IH.
      * destruct (findMetric_Some _ _ _ Hfind) as [Hname Hin].
        rewrite <- Hname. apply list_elem_of_fmap_2, Hin.
    + rewrite filter_cons_False by (apply findMetric_None; exact Hfind).
      exact IH.
  - unfold metricDeltas.
    induction baselineMetrics as [|bm l IH]; [reflexivity|].
    cbn [omap list_omap]. destruct (deltaRow scenarioMetrics bm); simpl; lia.
Qed.

(** X17. Each row of a comparison by name pairs a baseline metric with
    the first scenario metric of the same name: its delta is the scenario
    value minus the baseline value, its percent change is
    delta / baseline * 100 for every nonzero baseline, negative ones
    included, and 0 for a zero baseline, and it is flagged as an
    improvement exactly when the delta is positive for a metric where
    higher is better and negative otherwise; a zero delta is never an
    improvement. *)
Theorem metric_row_values :
  forall (baselineMetrics scenarioMetrics : list Metric.t) (row : DeltaRow.t),
    row ∈ metricDeltas baselineMetrics scenarioMetrics ->
    exists bm sm : Metric.t,
      bm ∈ baselineMetrics
      /\ findMetric (Metric.name bm) scenarioMetrics = Some sm
      /\ DeltaRow.name row = Metric.name bm
      /\ DeltaRow.baseline row = Metric.value bm
      /\ DeltaRow.scenario row = Metric.value sm
      /\ DeltaRow.delta row = DeltaRow.scenario row - DeltaRow.baseline row
      /\ (~ DeltaRow.baseline row == 0 ->
          DeltaRow.percentChange row
          = DeltaRow.delta row / DeltaRow.baseline row * 100)
      /\ (DeltaRow.baseline row == 0 -> DeltaRow.percentChange row = 0)
      /\ (Metric.isPositive bm = true ->
          (DeltaRow.isPositive row = true <-> 0 < DeltaRow.delta row))
      /\ (Metric.isPositive bm = false ->
          (DeltaRow.isPositive row = true <-> DeltaRow.delta row < 0))
      /\ (DeltaRow.delta row == 0 -> DeltaRow.isPositive row = false).
Proof.
  intros baselineMetrics scenarioMetrics row Hrow.
  unfold metricDeltas in Hrow. apply list_elem_of_omap in Hrow.
  destruct Hrow as [bm [Hbm Hdelta]]. unfold deltaRow in Hdelta.
  destruct (findMetric (Metric.name bm) scenarioMetrics) as [sm|] eqn:Hfind;
    [|discriminate].
  injection Hdelta as <-. exists bm, sm. simpl.
  split; [exact Hbm|]. split; [exact Hfind|].
  split; [reflexivity|]. split; [reflexivity|].
  split; [reflexivity|]. split; [reflexivity|].
  unfold percentNonzero. split; [|split; [|split; [|split]]].
  - intros Hnonzero.
    destruct (Qeq_bool (Metric.value bm) 0) eqn:Hz; [|reflexivity].
    apply Qeq_bool_iff in Hz. destruct (Hnonzero Hz).
  - intros Hzero. apply Qeq_bool_iff in Hzero. rewrite Hzero. reflexivity.
  - intros Hpolarity. rewrite Hpolarity. apply Qltb_true.
  - intros Hpolarity. rewrite Hpolarity. apply Qltb_true.
  - intros Hzero. destruct (Metric.isPositive bm); apply Qltb_false; lra.
Qed.

(** X18. The two percent-change rules of the repository, the engine
    comparator's [base > 0] and the comparison route's [base !== 0],
    agree on every non-negative baseline and differ on every negative
    one, where the comparator reports 0 and the route
    delta / baseline * 100. *)
Theorem percent_rules_compared :
  forall delta base : Q,
    (0 <= base -> percentNonzero delta base = percentOf delta base)
    /\ (base < 0 ->
        percentOf delta base = 0
        /\ percentNonzero delta base = delta / base * 100).
Proof.
  intros delta base. unfold percentNonzero, percentOf. split.
  - intros Hbase. destruct (Qeq_bool base 0) eqn:Hz.
    + apply Qeq_bool_iff in Hz.
      assert (Hoff : Qltb 0 base = false) by (apply Qltb_false; lra).
      rewrite Hoff. reflexivity.
    + apply Qeq_bool_neq in Hz.
      assert (Hon : Qltb 0 base = true) by (apply Qltb_true; lra).
      rewrite Hon. reflexivity.
  - intros Hbase.
    assert (Hoff : Qltb 0 base = false) by (apply Qltb_false; lra).
    assert (Hz : Qeq_bool base 0 = false).
    { destruct (Qeq_bool base 0) eqn:Hz; [|reflexivity].
      apply Qeq_bool_iff in Hz. lra. }
    rewrite Hoff, Hz. split; reflexivity.
Qed.

Lemma metric_row_values_witness :
  DeltaRow.percentChange sampleRow
  = DeltaRow.delta sampleRow / DeltaRow.baseline sampleRow * 100
  /\ DeltaRow.percentChange sampleRow == -20.
Proof.
  assert (Hrow : sampleRow ∈ metricDeltas sampleBaselineMetrics sampleScenarioMetrics).
  { unfold metricDeltas. apply list_elem_of_omap.
    exists {| Metric.name := "net_position"; Metric.displayName := "Net Position";
              Metric.value := -50; Metric.isPositive := true |}.
    split; [|reflexivity].
    apply list_elem_of_In. right. left. reflexivity. }
  destruct (metric_row_values _ _ _ Hrow)
    as (bm & sm & _ & _ & _ & _ & _ & _ & Hpercent & _).
  split; [|reflexivity].
  apply Hpercent. intros Hzero. vm_compute in Hzero. discriminate Hzero.
Defined.

Lemma percent_rules_compared_witness :
  percentNonzero 100 1000 = percentOf 100 1000
  /\ percentOf 100 (-100) = 0
  /\ percentNonzero 100 (-100) = 100 / (-100) * 100.
Proof.
  split.
  - apply (proj1 (percent_rules_compared 100 1000)). vm_compute. discriminate.
  - apply (proj2 (percent_rules_compared 100 (-100))). reflexivity.
Defined.

(** ** The cache and its tag index *)

Lemma untag_indexed key t index tag k :
  Cache.indexed (Cache.untag key t index) tag k
  <-> Cache.indexed index tag k /\ ~ (tag = t /\ k = key).
Proof.
  unfold Cache.indexed, Cache.untag.
  destruct (decide (tag = t)) as [->|Hne].
  - destruct (index !! t) as [keys0|] eqn:Ht.
    + destruct (decide (base.size (keys0 ∖ {[key]}) = 0%nat)) as [Hsize|Hsize].
      * apply size_empty_inv in Hsize. apply leibniz_equiv in Hsize.
        rewrite lookup_delete_eq. split.
        -- intros [keys [Hk _]]. discriminate Hk.
        -- intros [[keys [Hk Hin]] Hnot]. injection Hk as Hk. subst keys.
           destruct Hnot. split; [reflexivity|].
           destruct (decide (k = key)) as [Heq|Hkey]; [exact Heq|].
           assert (Hk : k ∈ keys0 ∖ {[key]}).
           { apply elem_of_difference. split; [exact Hin|].
             intros Hs. apply elem_of_singleton in Hs. tauto. }
           rewrite Hsize in Hk. destruct (not_elem_of_empty k Hk).
      * rewrite lookup_insert_eq. split.
        -- intros [keys [Hk Hin]]. injection Hk as Hk. subst keys.
           apply elem_of_difference in Hin. destruct Hin as [Hin Hkey].
           split.
           ++ exists keys0. split; [reflexivity | exact Hin].
           ++ intros [_ Heq]. apply Hkey, elem_of_singleton, Heq.
        -- intros [[keys [Hk Hin]] Hnot]. injection Hk as Hk. subst keys.
           eexists. split; [reflexivity|].
           apply elem_of_difference. split; [exact Hin|].
           intros Hs. apply elem_of_singleton in Hs. tauto.
    + split.
      * intros [keys [Hk _]]. simpl in Hk. congruence.
      * intros [[keys [Hk _]] _]. congruence.
  - assert (Hsame : match index !! t with
                    | Some keys =>
                        if decide (base.size (keys ∖ {[key]}) = 0%nat)
                        then base.delete t index
                        else <[t:=keys ∖ {[key]}]> index
                    | None => index
                    end !! tag = index !! tag).
    { destruct (index !! t) as [keys0|]; [|reflexivity].
      destruct (decide (base.size (keys0 ∖ {[key]}) = 0%nat)).
      - apply lookup_delete_ne. congruence.
      - apply lookup_insert_ne. congruence. }
    rewrite Hsame. split.
    + intros Hin. split; [exact Hin | intros [Heq _]; congruence].
    + intros [Hin _]. exact Hin.
Qed.

Lemma untag_noEmptyTag key t index :
  noEmptyTag index -> noEmptyTag (Cache.untag key t index).
Proof.
  unfold noEmptyTag, Cache.untag. intros Hindex tag keys.
  destruct (index !! t) as [keys0|] eqn:Ht; [|apply Hindex].
  destruct (decide (base.size (keys0 ∖ {[key]}) = 0%nat)) as [Hsize|Hsize].
  - destruct (decide (tag = t)) as [->|Hne].
    + rewrite lookup_delete_eq. discriminate.
    + rewrite lookup_delete_ne by congruence. apply Hindex.
  - destruct (decide (tag = t)) as [->|Hne].
    + rewrite lookup_insert_eq. intros Hk. simplify_eq.
      intros Hempty. apply Hsize. rewrite Hempty. apply size_empty.
    + rewrite lookup_insert_ne by congruence. apply Hindex.
Qed.

Lemma untag_all key (entryTags : gset string) index :
  (forall tag k,
      Cache.indexed (set_fold (Cache.untag key) index entryTags) tag k
      <-> Cache.indexed index tag k /\ ~ (tag ∈ entryTags /\ k = key))
  /\ (noEmptyTag index ->
      noEmptyTag (set_fold (Cache.untag key) index entryTags)).
Proof.
  apply (set_fold_ind_L
           (fun r (X : gset string) =>
              (forall tag k,
                  Cache.indexed r tag k
                  <-> Cache.indexed index tag k /\ ~ (tag ∈ X /\ k = key))
              /\ (noEmptyTag index -> noEmptyTag r))).
  - split; [|tauto]. intros tag k. split; [|tauto].
    intros Hin. split; [exact Hin|]. intros [Hx _]. set_solver.
  - intros t X r Ht [IH1 IH2]. split.
    + intros tag k. rewrite untag_indexed, IH1, elem_of_union, elem_of_singleton.
      tauto.
    + intros Hindex. apply untag_noEmptyTag, IH2, Hindex.
Qed.

Lemma addTag_indexed key t index tag k :
  Cache.indexed (Cache.addTag key t index) tag k
  <-> Cache.indexed index tag k \/ (tag = t /\ k = key).
Proof.
  unfold Cache.indexed, Cache.addTag.
  destruct (decide (tag = t)) as [->|Hne].
  - rewrite lookup_insert_eq. split.
    + intros [keys [Hk Hin]]. simplify_eq.
      apply elem_of_union in Hin. destruct Hin as [Hin|Hin].
      * right. split; [reflexivity|]. apply elem_of_singleton in Hin. exact Hin.
      * left. destruct (index !! t) as [keys0|]; [|set_solver].
        exists keys0. split; [reflexivity | exact Hin].
    + intros [[keys [Hk Hin]]|[_ ->]].
      * eexists. split; [reflexivity|]. rewrite Hk. set_solver.
      * eexists. split; [reflexivity|]. set_solver.
  - rewrite lookup_insert_ne by congruence. split.
    + intros Hin. left. exact Hin.
    + intros [Hin|[Heq _]]; [exact Hin | congruence].
Qed.

Lemma addTag_noEmptyTag key t index :
  noEmptyTag index -> noEmptyTag (Cache.addTag key t index).
Proof.
  unfold noEmptyTag, Cache.addTag. intros Hindex tag keys.
  destruct (decide (tag = t)) as [->|Hne].
  - rewrite lookup_insert_eq. intros Hk. simplify_eq. set_solver.
  - rewrite lookup_insert_ne by congruence. apply Hindex.
Qed.

Lemma addTag_all key (entryTags : gset string) index :
  (forall tag k,
      Cache.indexed (set_fold (Cache.addTag key) index entryTags) tag k
      <-> Cache.indexed index tag k \/ (tag ∈ entryTags /\ k = key))
  /\ (noEmptyTag index ->
      noEmptyTag (set_fold (Cache.addTag key) index entryTags)).
Proof.
  apply (set_fold_ind_L
           (fun r (X : gset string) =>
              (forall tag k,
                  Cache.indexed r tag k
                  <-> Cache.indexed index tag k \/ (tag ∈ X /\ k = key))
              /\ (noEmptyTag index -> noEmptyTag r))).
  - split; [|tauto]. intros tag k. split; [tauto|].
    intros [Hin|[Hx _]]; [exact Hin | set_solver].
  - intros t X r Ht [IH1 IH2]. split.
    + intros tag k. rewrite addTag_indexed, IH1, elem_of_union, elem_of_singleton.
      tauto.
    + intros Hindex. apply addTag_noEmptyTag, IH2, Hindex.
Qed.

Section CacheFacts.
Context {V : Type}.
Implicit Types c : Cache.t V.

Lemma delete_cache key c k :
  Cache.cache (snd (Cache.delete key c)) !! k
  = if decide (key = k) then None else Cache.cache c !! k.
Proof.
  unfold Cache.delete.
  destruct (Cache.cache c !! key) as [entry|] eqn:Hkey; simpl.
  - apply lookup_delete.
  - destruct (decide (key = k)) as [<-|]; [exact Hkey | reflexivity].
Qed.

Lemma delete_counters key c :
  Cache.hits (snd (Cache.delete key c)) = Cache.hits c
  /\ Cache.misses (snd (Cache.delete key c)) = Cache.misses c.
Proof.
  unfold Cache.delete. destruct (Cache.cache c !! key); split; reflexivity.
Qed.

Lemma delete_indexed key c tag k :
  Cache.consistent c ->
  Cache.indexed (Cache.tagIndex (snd (Cache.delete key c))) tag k
  <-> Cache.indexed (Cache.tagIndex c) tag k /\ k <> key.
Proof.
  intros [Hmirror _]. unfold Cache.delete.
  destruct (Cache.cache c !! key) as [entry|] eqn:Hkey; simpl.
  - rewrite (proj1 (untag_all key (Cache.tags entry) (Cache.tagIndex c))).
    split.
    + intros [Hin Hnot]. split; [exact Hin|]. intros ->.
      apply Hnot. split; [|reflexivity].
      apply Hmirror in Hin. destruct Hin as [e [He Htag]]. congruence.
    + intros [Hin Hne]. split; [exact Hin | tauto].
  - split.
    + intros Hin. split; [exact Hin|]. intros ->.
      apply Hmirror in Hin. destruct Hin as [e [He _]]. congruence.
    + intros [Hin _]. exact Hin.
Qed.

Lemma delete_consistent key c :
  Cache.consistent c -> Cache.consistent (snd (Cache.delete key c)).
Proof.
  intros Hc. split.
  - intros tag k. rewrite (delete_indexed key c tag k Hc), delete_cache.
    rewrite (proj1 Hc tag k).
    destruct (decide (key = k)) as [<-|Hne].
    + split; [tauto | intros [e [He _]]; discriminate].
    + split; [tauto | intros Hin; split; [exact Hin | congruence]].
  - destruct Hc as [_ Hnonempty]. unfold Cache.delete.
    destruct (Cache.cache c !! key) as [entry|]; simpl; [|exact Hnonempty].
    exact (proj2 (untag_all key (Cache.tags entry) (Cache.tagIndex c)) Hnonempty).
Qed.

(** X19. [delete] reports whether the key was cached, leaves the key
    absent and every other entry and both counters as they were, and on a
    consistent cache keeps the tag index consistent, with the key no
    longer listed under any tag. *)
Theorem delete_removes_key :
  forall (c : Cache.t V) (key : string),
    (fst (Cache.delete key c) = true <-> is_Some (Cache.cache c !! key))
    /\ Cache.cache (snd (Cache.delete key c)) !! key = None
    /\ (forall k, k <> key ->
        Cache.cache (snd (Cache.delete key c)) !! k = Cache.cache c !! k)
    /\ Cache.hits (snd (Cache.delete key c)) = Cache.hits c
    /\ Cache.misses (snd (Cache.delete key c)) = Cache.misses c
    /\ (Cache.consistent c ->
        Cache.consistent (snd (Cache.delete key c))
        /\ forall tag,
             ~ Cache.indexed (Cache.tagIndex (snd (Cache.delete key c))) tag key).
Proof.
  intros c key. split; [|split; [|split; [|split; [|split]]]].
  - unfold Cache.delete. destruct (Cache.cache c !! key); simpl.
    + split; [intros _; eexists; reflexivity | reflexivity].
    + split; [discriminate | intros [e He]; discriminate].
  - rewrite delete_cache. destruct (decide (key = key)); [reflexivity | congruence].
  - intros k Hne. rewrite delete_cache.
    destruct (decide (key = k)); [congruence | reflexivity].
  - apply delete_counters.
  - apply delete_counters.
  - intros Hc. split; [apply delete_consistent, Hc|].
    intros tag Hin. apply (delete_indexed key c tag key Hc) in Hin. tauto.
Qed.

Lemma set_cache key v options now created c k :
  Cache.cache (Cache.set key v options now created c) !! k
  = if decide (key = k) then Some (Cache.entryOf v options now created)
    else Cache.cache c !! k.
Proof.
  unfold Cache.set. cbv zeta. simpl. rewrite lookup_insert.
  destruct (decide (key = k)) as [<-|Hne]; [reflexivity|].
  destruct (decide (is_Some (Cache.cache c !! key))); [|reflexivity].
  rewrite delete_cache. destruct (decide (key = k)); [congruence | reflexivity].
Qed.

Lemma set_consistent key v options now created c :
  Cache.consistent c ->
  Cache.consistent (Cache.set key v options now created c)
  /\ forall tag k,
       Cache.indexed (Cache.tagIndex (Cache.set key v options now created c)) tag k
       <-> (k <> key /\ Cache.indexed (Cache.tagIndex c) tag k)
           \/ (k = key /\ tag ∈ Cache.tags (Cache.entryOf v options now created)).
Proof.
  intros Hc.
  set (c1 := if decide (is_Some (Cache.cache c !! key))
             then snd (Cache.delete key c) else c).
  assert (Hc1 : Cache.consistent c1).
  { unfold c1. destruct (decide (is_Some (Cache.cache c !! key)));
      [apply delete_consistent, Hc | exact Hc]. }
  assert (Habsent : Cache.cache c1 !! key = None).
  { unfold c1. destruct (decide (is_Some (Cache.cache c !! key))) as [Hs|Hs].
    - rewrite delete_cache. destruct (decide (key = key)); [reflexivity | congruence].
    - destruct (Cache.cache c !! key) eqn:Hk; [|reflexivity].
      destruct Hs. eexists. reflexivity. }
  assert (Hother : forall tag k, k <> key ->
             (Cache.indexed (Cache.tagIndex c1) tag k
              <-> Cache.indexed (Cache.tagIndex c) tag k)).
  { intros tag k Hne. unfold c1.
    destruct (decide (is_Some (Cache.cache c !! key))); [|reflexivity].
    rewrite (delete_indexed key c tag k Hc). tauto. }
  assert (Hkey : forall tag, ~ Cache.indexed (Cache.tagIndex c1) tag key).
  { intros tag Hin. apply (proj1 Hc1) in Hin. destruct Hin as [e [He _]]. congruence. }
  assert (Hindex : forall tag k,
             Cache.indexed (Cache.tagIndex (Cache.set key v options now created c)) tag k
             <-> Cache.indexed (Cache.tagIndex c1) tag k
                 \/ (tag ∈ Cache.tags (Cache.entryOf v options now created) /\ k = key)).
  { intros tag k. unfold Cache.set. cbv zeta. simpl. fold c1.
    apply (proj1 (addTag_all key _ (Cache.tagIndex c1))). }
  split; [split|].
  - intros tag k. rewrite Hindex, set_cache, (proj1 Hc1 tag k).
    destruct (decide (key = k)) as [<-|Hne].
    + split.
      * intros [[e [He _]]|[Htag _]]; [congruence|].
        eexists. split; [reflexivity | exact Htag].
      * intros [e [He Htag]]. injection He as <-. right. split; [exact Htag | reflexivity].
    + assert (Hsame : Cache.cache c1 !! k = Cache.cache c !! k).
      { unfold c1. destruct (decide (is_Some (Cache.cache c !! key))); [|reflexivity].
        rewrite delete_cache. destruct (decide (key = k)); [congruence | reflexivity]. }
      rewrite Hsame. split; [intros [Hin|[_ Heq]]; [exact Hin | congruence] | tauto].
  - unfold Cache.set. cbv zeta. simpl. fold c1.
    exact (proj2 (addTag_all key _ (Cache.tagIndex c1)) (proj2 Hc1)).
  - intros tag k. rewrite Hindex. destruct (decide (k = key)) as [->|Hne].
    + split.
      * intros [Hin|[Htag _]]; [destruct (Hkey tag Hin) | right; tauto].
      * intros [[Hne _]|[_ Htag]]; [congruence | right; tauto].
    + rewrite (Hother tag k Hne). split.
      * intros [Hin|[_ Heq]]; [left; tauto | congruence].
      * intros [[_ Hin]|[Heq _]]; [left; exact Hin | congruence].
Qed.

End CacheFacts.

Section CacheOperations.
Context {V : Type}.
Implicit Types c : Cache.t V.

Lemma empty_consistent : Cache.consistent (Cache.empty (V := V)).
Proof.
  split.
  - intros tag key. unfold Cache.indexed. simpl. split.
    + intros [keys [Hk _]]. rewrite lookup_empty in Hk. discriminate Hk.
    + intros [entry [He _]]. rewrite lookup_empty in He. discriminate He.
  - intros tag keys Hk. simpl in Hk. rewrite lookup_empty in Hk. discriminate Hk.
Qed.

(** X20. [set] stores the entry under the key, replacing an earlier
    entry together with its tags, and leaves every other entry and both
    counters as they were; a consistent cache stays consistent, the key
    being listed afterwards under exactly the tags just given and the
    other keys under the tags they had. *)
Theorem set_stores_and_retags :
  forall (c : Cache.t V) (key : string) (v : V) (options : option Cache.Options)
         (now created : Q),
    let c' := Cache.set key v options now created c in
    Cache.cache c' !! key = Some (Cache.entryOf v options now created)
    /\ (forall k, k <> key -> Cache.cache c' !! k = Cache.cache c !! k)
    /\ Cache.hits c' = Cache.hits c
    /\ Cache.misses c' = Cache.misses c
    /\ (Cache.consistent c ->
        Cache.consistent c'
        /\ (forall tag,
              Cache.indexed (Cache.tagIndex c') tag key
              <-> tag ∈ default [] (options ≫= Cache.optionTags))
        /\ forall tag k, k <> key ->
             (Cache.indexed (Cache.tagIndex c') tag k
              <-> Cache.indexed (Cache.tagIndex c) tag k)).
Proof.
  intros c key v options now created. cbv zeta.
  split; [|split; [|split; [|split]]].
  - rewrite set_cache. destruct (decide (key = key)); [reflexivity | congruence].
  - intros k Hne. rewrite set_cache.
    destruct (decide (key = k)); [congruence | reflexivity].
  - unfold Cache.set. cbv zeta. simpl.
    destruct (decide (is_Some (Cache.cache c !! key))); [|reflexivity].
    apply delete_counters.
  - unfold Cache.set. cbv zeta. simpl.
    destruct (decide (is_Some (Cache.cache c !! key))); [|reflexivity].
    apply delete_counters.
  - intros Hc.
    destruct (set_consistent key v options now created c Hc) as [Hc' Hindex].
    split; [exact Hc'|]. split.
    + intros tag. rewrite Hindex. simpl. rewrite elem_of_list_to_set.
      split; [intros [[Hne _]|[_ Htag]]; [congruence | exact Htag] | tauto].
    + intros tag k Hne. rewrite Hindex.
      split; [intros [[_ Hin]|[Heq _]]; [exact Hin | congruence] | tauto].
Qed.

Lemma get_result key now c :
  Cache.get key now c
  = match Cache.cache c !! key with
    | None => (None, Cache.miss c)
    | Some entry =>
        if Cache.expired now entry
        then (None, Cache.miss (snd (Cache.delete key c)))
        else (Some (Cache.value entry), Cache.hit c)
    end.
Proof. reflexivity. Qed.

(** X21. [get] returns the value of the key's entry when there is one
    and it has not expired, and [null] otherwise; each call adds one to
    exactly one of the two counters; a hit changes nothing else, and an
    expired entry is removed on the way, the other entries staying as
    they were and a consistent cache consistent. *)
Theorem get_hits_and_misses :
  forall (c : Cache.t V) (key : string) (now : Q),
    let r := fst (Cache.get key now c) in
    let c' := snd (Cache.get key now c) in
    (forall v, r = Some v
               <-> exists entry, Cache.cache c !! key = Some entry
                                 /\ Cache.expired now entry = false
                                 /\ Cache.value entry = v)
    /\ (is_Some r ->
        c' = Cache.hit c)
    /\ (r = None ->
        Cache.hits c' = Cache.hits c /\ Cache.misses c' = S (Cache.misses c)
        /\ Cache.cache c' !! key = None)
    /\ (forall k, k <> key -> Cache.cache c' !! k = Cache.cache c !! k)
    /\ (Cache.consistent c -> Cache.consistent c').
Proof.
  intros c key now. cbv zeta. rewrite get_result.
  destruct (Cache.cache c !! key) as [entry|] eqn:Hkey.
  - destruct (Cache.expired now entry) eqn:Hexp; simpl.
    + split; [|split; [|split; [|split]]].
      * intros v. split; [discriminate|].
        intros [e [He [Hfresh _]]]. injection He as <-. congruence.
      * intros [v Hv]. discriminate Hv.
      * intros _. split; [apply delete_counters|].
        split; [f_equal; apply delete_counters|].
        rewrite delete_cache. destruct (decide (key = key)); [reflexivity | congruence].
      * intros k Hne. rewrite delete_cache.
        destruct (decide (key = k)); [congruence | reflexivity].
      * intros Hc. destruct (delete_consistent key c Hc) as [Hm Hn].
        split; [exact Hm | exact Hn].
    + split; [|split; [|split; [|split]]].
      * intros v. split.
        -- intros Hv. injection Hv as <-. exists entry. tauto.
        -- intros [e [He [_ <-]]]. injection He as <-. reflexivity.
      * intros _. reflexivity.
      * discriminate.
      * intros k _. reflexivity.
      * intros Hc. exact Hc.
  - simpl. split; [|split; [|split; [|split]]].
    + intros v. split; [discriminate | intros [e [He _]]; discriminate].
    + intros [v Hv]. discriminate Hv.
    + intros _. split; [reflexivity|]. split; [reflexivity | exact Hkey].
    + intros k _. reflexivity.
    + intros Hc. exact Hc.
Qed.

(** X22. What was set is read back as long as it has not expired: an
    entry set without a time to live, or with one of 0, never expires,
    and one set with a time to live d is returned up to and including
    time now + d and afterwards is a miss that removes it. *)
Theorem set_then_get :
  forall (c : Cache.t V) (key : string) (v : V) (options : option Cache.Options)
         (now created later : Q),
    let c' := Cache.set key v options now created c in
    (options ≫= Cache.ttl = None -> fst (Cache.get key later c') = Some v)
    /\ (forall d, options ≫= Cache.ttl = Some d -> d == 0 ->
        fst (Cache.get key later c') = Some v)
    /\ (forall d, options ≫= Cache.ttl = Some d -> ~ d == 0 -> later <= now + d ->
        fst (Cache.get key later c') = Some v)
    /\ (forall d, options ≫= Cache.ttl = Some d -> ~ d == 0 -> ~ now + d == 0 ->
        now + d < later ->
        fst (Cache.get key later c') = None
        /\ Cache.cache (snd (Cache.get key later c')) !! key = None).
Proof.
  intros c key v options now created later. cbv zeta.
  assert (Hentry : Cache.cache (Cache.set key v options now created c) !! key
                   = Some (Cache.entryOf v options now created)).
  { rewrite set_cache. destruct (decide (key = key)); [reflexivity | congruence]. }
  rewrite get_result, Hentry. unfold Cache.expired, Cache.entryOf. simpl.
  split; [|split; [|split]].
  - intros Hnone. rewrite Hnone. reflexivity.
  - intros d Hd Hzero. rewrite Hd. apply Qeq_bool_iff in Hzero.
    rewrite Hzero. reflexivity.
  - intros d Hd Hnonzero Hlater. rewrite Hd.
    destruct (Qeq_bool d 0) eqn:Hz; [reflexivity|].
    assert (Hfresh : Qltb (now + d) later = false) by (apply Qltb_false; exact Hlater).
    rewrite Hfresh, andb_false_r. reflexivity.
  - intros d Hd Hnonzero Hat Hlater. rewrite Hd.
    destruct (Qeq_bool d 0) eqn:Hz;
      [apply Qeq_bool_iff in Hz; destruct (Hnonzero Hz)|].
    assert (Hstale : Qltb (now + d) later = true) by (apply Qltb_true; exact Hlater).
    assert (Hat' : Qeq_bool (now + d) 0 = false).
    { destruct (Qeq_bool (now + d) 0) eqn:Hq; [|reflexivity].
      apply Qeq_bool_iff in Hq. destruct (Hat Hq). }
    rewrite Hstale, Hat'. simpl. split; [reflexivity|].
    rewrite delete_cache. destruct (decide (key = key)); [reflexivity | congruence].
Qed.

(** X23. The hit rate reported by [getStats] is hits / (hits + misses),
    a number between 0 and 1, and 0 for a cache that was never read; the
    size is the number of entries. *)
Theorem stats_hit_rate :
  forall c : Cache.t V,
    let s := Cache.getStats c in
    0 <= Cache.hitRate s /\ Cache.hitRate s <= 1
    /\ Cache.size s = base.size (Cache.cache c)
    /\ ((Cache.hits c + Cache.misses c = 0)%nat -> Cache.hitRate s = 0)
    /\ ((0 < Cache.hits c + Cache.misses c)%nat ->
        Cache.hitRate s * inject_Z (Z.of_nat (Cache.hits c + Cache.misses c))
        == inject_Z (Z.of_nat (Cache.hits c))).
Proof.
  intros c. cbv zeta. unfold Cache.getStats. simpl.
  destruct (Nat.ltb 0 (Cache.hits c + Cache.misses c)) eqn:Hany.
  - apply Nat.ltb_lt in Hany.
    assert (Htotal : 0 < inject_Z (Z.of_nat (Cache.hits c + Cache.misses c))).
    { change 0 with (inject_Z 0). rewrite <- Zlt_Qlt. lia. }
    assert (Hhits : 0 <= inject_Z (Z.of_nat (Cache.hits c))).
    { change 0 with (inject_Z 0). rewrite <- Zle_Qle. lia. }
    assert (Hle : inject_Z (Z.of_nat (Cache.hits c))
                  <= inject_Z (Z.of_nat (Cache.hits c + Cache.misses c))).
    { rewrite <- Zle_Qle. lia. }
    split; [apply Qle_shift_div_l; lra|].
    split; [apply Qle_shift_div_r; lra|].
    split; [reflexivity|]. split; [lia|]. intros _. field. lra.
  - apply Nat.ltb_ge in Hany.
    split; [lra|]. split; [lra|]. split; [reflexivity|].
    split; [reflexivity | lia].
Qed.

End CacheOperations.

Section CacheInvalidation.
Context {V : Type}.
Implicit Types c : Cache.t V.

Lemma invalidateKey_result key (acc : nat * Cache.t V) :
  Cache.invalidateKey key acc
  = (if fst (Cache.delete key (snd acc)) then S (fst acc) else fst acc,
     snd (Cache.delete key (snd acc))).
Proof.
  unfold Cache.invalidateKey. destruct (Cache.delete key (snd acc)). reflexivity.
Qed.

Lemma delete_reports key c :
  fst (Cache.delete key c) = true <-> is_Some (Cache.cache c !! key).
Proof.
  unfold Cache.delete. destruct (Cache.cache c !! key); simpl.
  - split; [intros _; eexists; reflexivity | reflexivity].
  - split; [discriminate | intros [e He]; discriminate].
Qed.

Lemma invalidate_keys c (keys : gset string) :
  Cache.consistent c ->
  (forall x, x ∈ keys -> is_Some (Cache.cache c !! x)) ->
  let r := set_fold Cache.invalidateKey (0%nat, c) keys in
  Cache.consistent (snd r)
  /\ (forall k, Cache.cache (snd r) !! k
                = if decide (k ∈ keys) then None else Cache.cache c !! k)
  /\ fst r = base.size keys
  /\ Cache.hits (snd r) = Cache.hits c
  /\ Cache.misses (snd r) = Cache.misses c
  /\ (forall tag k,
         Cache.indexed (Cache.tagIndex (snd r)) tag k
         <-> Cache.indexed (Cache.tagIndex c) tag k /\ k ∉ keys).
Proof.
  intros Hc. cbv zeta. revert keys.
  apply (set_fold_ind_L
           (fun (r : nat * Cache.t V) (X : gset string) =>
              (forall x, x ∈ X -> is_Some (Cache.cache c !! x)) ->
              Cache.consistent (snd r)
              /\ (forall k, Cache.cache (snd r) !! k
                            = if decide (k ∈ X) then None else Cache.cache c !! k)
              /\ fst r = base.size X
              /\ Cache.hits (snd r) = Cache.hits c
              /\ Cache.misses (snd r) = Cache.misses c
              /\ (forall tag k,
                     Cache.indexed (Cache.tagIndex (snd r)) tag k
                     <-> Cache.indexed (Cache.tagIndex c) tag k /\ k ∉ X))
           Cache.invalidateKey (0%nat, c)).
  - intros _. simpl. split; [exact Hc|]. split; [intros k; reflexivity|].
    split; [reflexivity|]. split; [reflexivity|].
    split; [reflexivity|]. intros tag k. split; [|tauto].
    intros Hin. split; [exact Hin | apply not_elem_of_empty].
  - intros x X r Hx IH Hcached.
    destruct IH as (Hr & Hcache & Hcount & Hhits & Hmisses & Hindex).
    { intros y Hy. apply Hcached. apply elem_of_union. right. exact Hy. }
    rewrite invalidateKey_result. simpl.
    assert (Hpresent : fst (Cache.delete x (snd r)) = true).
    { apply delete_reports. rewrite Hcache.
      destruct (decide (x ∈ X)); [contradiction|].
      apply Hcached. apply elem_of_union. left. apply elem_of_singleton. reflexivity. }
    rewrite Hpresent.
    split; [apply delete_consistent, Hr|].
    split.
    { intros k. rewrite delete_cache, Hcache.
      destruct (decide (x = k)) as [<-|Hne].
      - destruct (decide (x ∈ {[x]} ∪ X)) as [_|Hnot]; [reflexivity|].
        destruct Hnot. apply elem_of_union. left. apply elem_of_singleton. reflexivity.
      - destruct (decide (k ∈ X)) as [Hk|Hk].
        + destruct (decide (k ∈ {[x]} ∪ X)) as [_|Hnot]; [reflexivity|].
          destruct Hnot. apply elem_of_union. right. exact Hk.
        + destruct (decide (k ∈ {[x]} ∪ X)) as [Hin|_]; [|reflexivity].
          apply elem_of_union in Hin. destruct Hin as [Hin|Hin]; [|contradiction].
          apply elem_of_singleton in Hin. congruence. }
    split.
    { rewrite size_union by (apply disjoint_singleton_l; exact Hx).
      rewrite size_singleton, Hcount. reflexivity. }
    split; [rewrite (proj1 (delete_counters x (snd r))); exact Hhits|].
    split; [rewrite (proj2 (delete_counters x (snd r))); exact Hmisses|].
    intros tag k. rewrite (delete_indexed x (snd r) tag k Hr), Hindex.
    rewrite elem_of_union, elem_of_singleton. tauto.
Qed.

(** X24. On a consistent cache [invalidateTag] removes exactly the
    entries that carry the tag and returns their number; entries without
    the tag and both counters stay as they were, the tag is gone from the
    index and the cache is consistent again. A tag that is not in the
    index removes nothing and returns 0. *)
Theorem invalidateTag_removes_tagged :
  forall (c : Cache.t V) (tag : string),
    Cache.consistent c ->
    let n := fst (Cache.invalidateTag tag c) in
    let c' := snd (Cache.invalidateTag tag c) in
    Cache.consistent c'
    /\ (forall key entry,
          Cache.cache c !! key = Some entry ->
          Cache.cache c' !! key
          = if decide (tag ∈ Cache.tags entry) then None else Some entry)
    /\ (forall key, Cache.cache c !! key = None -> Cache.cache c' !! key = None)
    /\ n = base.size (default ∅ (Cache.tagIndex c !! tag))
    /\ Cache.hits c' = Cache.hits c
    /\ Cache.misses c' = Cache.misses c
    /\ Cache.tagIndex c' !! tag = None
    /\ (Cache.tagIndex c !! tag = None -> n = 0%nat /\ c' = c).
Proof.
  intros c tag Hc. cbv zeta. unfold Cache.invalidateTag.
  destruct (Cache.tagIndex c !! tag) as [keys|] eqn:Htag.
  - assert (Hlisted : forall k, k ∈ keys
                       <-> exists entry, Cache.cache c !! k = Some entry
                                         /\ tag ∈ Cache.tags entry).
    { intros k. rewrite <- (proj1 Hc tag k). unfold Cache.indexed. split.
      - intros Hk. exists keys. split; [exact Htag | exact Hk].
      - intros [keys' [Hk' Hin]]. congruence. }
    destruct (invalidate_keys c keys Hc) as (Hc' & Hcache & Hn & Hh & Hm & Hindex).
    { intros x Hx. apply Hlisted in Hx. destruct Hx as [e [He _]].
      eexists. exact He. }
    split; [exact Hc'|]. split.
    { intros key entry Hentry. rewrite Hcache.
      destruct (decide (key ∈ keys)) as [Hk|Hk];
        destruct (decide (tag ∈ Cache.tags entry)) as [Ht|Ht];
        try reflexivity; try exact Hentry.
      - apply Hlisted in Hk. destruct Hk as [e [He Hin]]. congruence.
      - destruct Hk. apply Hlisted. exists entry. tauto. }
    split.
    { intros key Hnone. rewrite Hcache. destruct (decide (key ∈ keys)); tauto. }
    split; [exact Hn|]. split; [exact Hh|]. split; [exact Hm|].
    split; [|discriminate].
    destruct (Cache.tagIndex
                (snd (set_fold Cache.invalidateKey (0%nat, c) keys)) !! tag)
      as [left|] eqn:Hleft; [|reflexivity].
    destruct (proj2 Hc' tag left Hleft).
    apply leibniz_equiv. apply elem_of_equiv_empty. intros k Hk.
    assert (Hin : Cache.indexed
                    (Cache.tagIndex (snd (set_fold Cache.invalidateKey (0%nat, c) keys)))
                    tag k).
    { exists left. split; [exact Hleft | exact Hk]. }
    apply Hindex in Hin. destruct Hin as [[keys' [Hk' Hin]] Hnot].
    congruence.
  - simpl. split; [exact Hc|]. split.
    { intros key entry Hentry.
      destruct (decide (tag ∈ Cache.tags entry)) as [Ht|Ht]; [|exact Hentry].
      assert (Hin : Cache.indexed (Cache.tagIndex c) tag key).
      { apply (proj1 Hc). exists entry. tauto. }
      destruct Hin as [keys [Hk _]]. congruence. }
    split; [tauto|]. split; [reflexivity|]. split; [reflexivity|].
    split; [reflexivity|]. split; [exact Htag|]. intros _. split; reflexivity.
Qed.

End CacheInvalidation.

Section CacheCleanup.
Context {V : Type}.
Implicit Types c : Cache.t V.

(** X25. [cleanup] removes exactly the entries that have expired at the
    given time and returns their number; the other entries and both
    counters stay as they were, and a consistent cache stays
    consistent. *)
Theorem cleanup_removes_expired :
  forall (c : Cache.t V) (now : Q),
    let n := fst (Cache.cleanup now c) in
    let c' := snd (Cache.cleanup now c) in
    (forall key,
        Cache.cache c' !! key
        = match Cache.cache c !! key with
          | Some entry => if Cache.expired now entry then None else Some entry
          | None => None
          end)
    /\ n = base.size (filter (fun kv => Cache.expired now (snd kv) = true) (Cache.cache c))
    /\ Cache.hits c' = Cache.hits c
    /\ Cache.misses c' = Cache.misses c
    /\ (Cache.consistent c -> Cache.consistent c').
Proof.
  intros c now. cbv zeta. unfold Cache.cleanup.
  pose proof (map_fold_weak_ind
    (fun (r : nat * Cache.t V) (m : gmap string (Cache.CacheEntry V)) =>
       (forall key,
           Cache.cache (snd r) !! key
           = match m !! key with
             | Some entry =>
                 if Cache.expired now entry then None else Cache.cache c !! key
             | None => Cache.cache c !! key
             end)
       /\ fst r = base.size (filter (fun kv => Cache.expired now (snd kv) = true) m)
       /\ Cache.hits (snd r) = Cache.hits c
       /\ Cache.misses (snd r) = Cache.misses c
       /\ (Cache.consistent c -> Cache.consistent (snd r)))
    (Cache.cleanupEntry now) (0%nat, c)) as Hind.
  destruct (Hind) with (m := Cache.cache c) as (Hcache & Hn & Hh & Hm & Hc).
  - simpl. split; [intros key; rewrite lookup_empty; reflexivity|].
    split; [rewrite map_filter_empty, map_size_empty; reflexivity|].
    split; [reflexivity|]. split; [reflexivity | tauto].
  - intros i x m r Hi (IHcache & IHn & IHh & IHm & IHc).
    unfold Cache.cleanupEntry. destruct (Cache.expired now x) eqn:Hexp; simpl.
    + split.
      { intros key. rewrite delete_cache, lookup_insert.
        destruct (decide (i = key)) as [<-|Hne]; [rewrite Hexp; reflexivity|].
        apply IHcache. }
      split.
      { rewrite map_filter_insert_True by exact Hexp.
        rewrite map_size_insert_None
          by (apply map_lookup_filter_None; left; exact Hi).
        rewrite IHn. reflexivity. }
      split; [rewrite (proj1 (delete_counters i (snd r))); exact IHh|].
      split; [rewrite (proj2 (delete_counters i (snd r))); exact IHm|].
      intros Hcons. apply delete_consistent, IHc, Hcons.
    + split.
      { intros key. rewrite lookup_insert.
        destruct (decide (i = key)) as [<-|Hne].
        - rewrite Hexp, IHcache, Hi. reflexivity.
        - apply IHcache. }
      split.
      { rewrite map_filter_insert_False
          by (simpl; rewrite Hexp; discriminate).
        rewrite delete_id by exact Hi. exact IHn. }
      split; [exact IHh|]. split; [exact IHm | exact IHc].
  - split.
    { intros key. rewrite Hcache.
      destruct (Cache.cache c !! key) as [entry|]; reflexivity. }
    split; [exact Hn|]. split; [exact Hh|]. split; [exact Hm | exact Hc].
Qed.

End CacheCleanup.

Lemma sampleCache_consistent : Cache.consistent sampleCache.
Proof. apply set_consistent, empty_consistent. Qed.

Lemma delete_removes_key_witness :
  Cache.consistent (snd (Cache.delete "scenario:1:results" sampleCache))
  /\ ~ Cache.indexed
         (Cache.tagIndex (snd (Cache.delete "scenario:1:results" sampleCache)))
         "tenant:demo" "scenario:1:results".
Proof.
  destruct (proj2 (proj2 (proj2 (proj2 (proj2
              (delete_removes_key sampleCache "scenario:1:results")))))
              sampleCache_consistent) as [Hc Hgone].
  split; [exact Hc | apply Hgone].
Defined.

Lemma set_stores_and_retags_witness :
  Cache.indexed
    (Cache.tagIndex (Cache.set "scenario:1:results" 8%nat
                       (Some {| Cache.optionTags := Some ["tenant:other"];
                                Cache.ttl := None |})
                       2000 2000 sampleCache))
    "tenant:other" "scenario:1:results"
  /\ ~ Cache.indexed
         (Cache.tagIndex (Cache.set "scenario:1:results" 8%nat
                            (Some {| Cache.optionTags := Some ["tenant:other"];
                                     Cache.ttl := None |})
                            2000 2000 sampleCache))
         "tenant:demo" "scenario:1:results".
Proof.
  destruct (proj2 (proj2 (proj2 (proj2
              (set_stores_and_retags sampleCache "scenario:1:results" 8%nat
                 (Some {| Cache.optionTags := Some ["tenant:other"];
                          Cache.ttl := None |}) 2000 2000))))
              sampleCache_consistent) as (_ & Htags & _).
  split.
  - apply Htags. simpl. apply list_elem_of_In. left. reflexivity.
  - intros Hin. apply Htags in Hin. simpl in Hin.
    apply list_elem_of_In in Hin. destruct Hin as [Heq|[]]. discriminate Heq.
Defined.

Lemma get_hits_and_misses_witness :
  snd (Cache.get "scenario:1:results" 2000 sampleCache) = Cache.hit sampleCache
  /\ Cache.misses (snd (Cache.get "policy:9" 2000 sampleCache))
     = S (Cache.misses sampleCache).
Proof.
  split.
  - apply (proj1 (proj2 (get_hits_and_misses sampleCache "scenario:1:results" 2000))).
    eexists. reflexivity.
  - apply (proj1 (proj2 (proj2 (get_hits_and_misses sampleCache "policy:9" 2000)))).
    reflexivity.
Defined.

Lemma set_then_get_witness :
  fst (Cache.get "scenario:1:results" 61000 sampleCache) = Some 7%nat
  /\ fst (Cache.get "scenario:1:results" 61001 sampleCache) = None.
Proof.
  split.
  - apply (proj1 (proj2 (proj2 (set_then_get Cache.empty "scenario:1:results" 7%nat
                                  (Some sampleOptions) 1000 1000 61000))) 60000).
    + reflexivity.
    + intros Hzero. vm_compute in Hzero. discriminate Hzero.
    + vm_compute. discriminate.
  - apply (proj2 (proj2 (proj2 (set_then_get Cache.empty "scenario:1:results" 7%nat
                                  (Some sampleOptions) 1000 1000 61001))) 60000).
    + reflexivity.
    + intros Hzero. vm_compute in Hzero. discriminate Hzero.
    + intros Hzero. vm_compute in Hzero. discriminate Hzero.
    + reflexivity.
Defined.

Lemma stats_hit_rate_witness :
  Cache.hitRate (Cache.getStats (Cache.empty (V := nat))) = 0
  /\ Cache.hitRate
       (Cache.getStats (snd (Cache.get "scenario:1:results" 2000 sampleCache)))
     * inject_Z (Z.of_nat 1) == inject_Z (Z.of_nat 1).
Proof.
  split.
  - apply (proj1 (proj2 (proj2 (proj2 (stats_hit_rate (Cache.empty (V := nat))))))).
    reflexivity.
  - apply (proj2 (proj2 (proj2 (proj2
             (stats_hit_rate (snd (Cache.get "scenario:1:results" 2000 sampleCache))))))).
    vm_compute. lia.
Defined.

Lemma invalidateTag_removes_tagged_witness :
  Cache.consistent (snd (Cache.invalidateTag "tenant:demo" sampleCache))
  /\ Cache.tagIndex (snd (Cache.invalidateTag "tenant:demo" sampleCache))
       !! "tenant:demo" = None.
Proof.
  destruct (invalidateTag_removes_tagged sampleCache "tenant:demo"
              sampleCache_consistent) as (Hc & _ & _ & _ & _ & _ & Hgone & _).
  split; [exact Hc | exact Hgone].
Defined.

Lemma cleanup_removes_expired_witness :
  Cache.consistent (snd (Cache.cleanup 70000 sampleCache)).
Proof.
  exact (proj2 (proj2 (proj2 (proj2 (cleanup_removes_expired sampleCache 70000))))
           sampleCache_consistent).
Defined.

Section CacheHas.
Context {V : Type}.

(** X26. [has] answers true exactly when [get] would return a value; it
    removes an expired entry as [get] does, leaving the same entries and
    tag index behind, but counts neither a hit nor a miss. *)
Theorem has_agrees_with_get :
  forall (c : Cache.t V) (key : string) (now : Q),
    (fst (Cache.has key now c) = true <-> is_Some (fst (Cache.get key now c)))
    /\ Cache.cache (snd (Cache.has key now c))
       = Cache.cache (snd (Cache.get key now c))
    /\ Cache.tagIndex (snd (Cache.has key now c))
       = Cache.tagIndex (snd (Cache.get key now c))
    /\ Cache.hits (snd (Cache.has key now c)) = Cache.hits c
    /\ Cache.misses (snd (Cache.has key now c)) = Cache.misses c.
Proof.
  intros c key now. unfold Cache.has, Cache.get.
  destruct (Cache.cache c !! key) as [entry|] eqn:Hkey.
  - destruct (Cache.expired now entry); simpl.
    + split; [split; [discriminate | intros [v Hv]; discriminate]|].
      split; [reflexivity|]. split; [reflexivity|]. apply delete_counters.
    + split; [split; [intros _; eexists; reflexivity | reflexivity]|].
      repeat split.
  - simpl. split; [split; [discriminate | intros [v Hv]; discriminate]|].
    repeat split.
Qed.

End CacheHas.
